(** * Student Face System: matching, registration and login policy

    A shallow embedding of [new.py], the Streamlit front end that registers
    students by face embedding and logs them in by cosine similarity against
    the embeddings fetched from a remote spreadsheet.

    Conventions of the embedding.
    - A NumPy [float64] is a binary64 number of the prover ([float]), with
      its rounding, its infinities and its [nan]; comparisons and [1 -
      threshold] are the processor's.
    - What the libraries compute is taken from them and not computed anew:
      the similarities of [sklearn]'s [cosine_similarity] (class [Sklearn]),
      whose last bits depend on the order in which the linked BLAS kernel
      adds, and the text form of numbers of NumPy and Python (class
      [FloatText]).  The checks that [cosine_similarity] makes before it
      computes, and the scan of [numpy.argmax], are written out.
    - A Python exception is a value of [exn]; code that can raise returns a
      [result].
    - Code that talks to the network, to Streamlit's cache, session state or
      page runs in the monad [M] over [state].  The page of the model holds
      the elements that [fetch_registered], [post_student] and the blocks of
      the buttons put on it; the elements of the two capture blocks (lines
      98, 101, 140, 143), the table of line 126 and the line "Logged in as"
      (line 157) are not on it. *)

From Stdlib Require Import Floats Reals Lia String Ascii ZArith Bool List.
Import ListNotations.

#[local] Set Warnings "-inexact-float".

(** ** Python values *)

(** The exceptions that the modelled code can meet. *)
Inductive exn : Type :=
| RequestException (cause : string)
| HTTPError (status : Z)
| JSONDecodeError
| KeyError (key : string)
| TypeError
| AttributeError
| ValueError
| IndexError.

Inductive result (A : Type) : Type :=
| Ok (a : A)
| Raise (e : exn).

Arguments Ok {A} a.
Arguments Raise {A} e.

Definition rbind {A B : Type} (m : result A) (k : A -> result B) : result B :=
  match m with
  | Ok a => k a
  | Raise e => Raise e
  end.

Notation "'let?' x ':=' m 'in' k" := (rbind m (fun x => k))
  (at level 10, x name, m at level 100, k at level 200).

(** [l[i]] on a Python list or NumPy array, for a non-negative index. *)
Definition getitem {A : Type} (l : list A) (i : nat) : result A :=
  match nth_error l i with
  | Some a => Ok a
  | None => Raise IndexError
  end.

(** ** The numeric kernel: [sklearn.metrics.pairwise.cosine_similarity]
       and [numpy.argmax] *)

(** An embedding, a one-dimensional [float64] array. *)
Definition vec : Type := list float.

(** The embedding dimension of the Facenet model and of the store's records. *)
Definition EMB_SIZE : nat := 128.

(** [numpy.isfinite(x).all()]: no entry is [nan] or infinite. *)
Definition all_finite (x : vec) : bool := forallb is_finite x.

(** [sklearn.metrics.pairwise.check_pairwise_arrays] on an [(n, d)] matrix
    and a [(1, m)] matrix: both need at least one feature, every row of the
    first has to have the length of the second's row, and [check_array]
    refuses an entry that is [nan] or infinite. *)
Definition check_pairwise_arrays (X : list vec) (y : vec) : bool :=
  (0 <? length y)%nat && forallb (fun k => (length k =? length y)%nat) X
  && all_finite y && forallb all_finite X.

(** The arithmetic of [cosine_similarity] is the library's.
    [pairwise_cosine X y] is the flattened product of the normalised
    matrices, [normalize(X) @ normalize(Y).T], for the matrix of the rows
    [X] and the one-row matrix [Y] of [y]: one similarity for each row of
    [X]. *)
Class Sklearn : Type := {
  pairwise_cosine : list vec -> vec -> list float;
  pairwise_cosine_length :
    forall (X : list vec) (y : vec), length (pairwise_cosine X y) = length X
}.

(** The scan of [numpy.argmax] after its first element: [best] is the index
    of the value [bv] kept so far, [i] the index of the head of [l].  The
    scan moves on a value [x] for which [x <= bv] does not hold, and stops
    there when that value is [nan]. *)
Fixpoint argmax_from (best : nat) (bv : float) (i : nat) (l : list float) : nat :=
  match l with
  | [] => best
  | x :: l' =>
      if (x <=? bv)%float
      then argmax_from best bv (S i) l'
      else if is_nan x then i else argmax_from i x (S i) l'
  end.

(** [numpy.argmax]: the index of the first occurrence of the maximum, or of
    the first [nan]; [ValueError] on an empty array. *)
Definition np_argmax (l : list float) : result nat :=
  match l with
  | [] => Raise ValueError
  | x :: l' => Ok (if is_nan x then 0%nat else argmax_from 0 x 1 l')
  end.

(** ** The Matcher *)

(** The default of [find_match]'s [threshold] parameter. *)
Definition default_threshold : float := 0.4%float.

Section Matcher.

Context {SK : Sklearn}.

(** [cosine_similarity(X, Y).flatten()] for a one-row [Y]: the similarities
    that the library computes, or [ValueError] when it refuses its input. *)
Definition cosine_similarity (X : list vec) (y : vec) : result (list float) :=
  if check_pairwise_arrays X y
  then Ok (pairwise_cosine X y)
  else Raise ValueError.

(** [find_match(known_embs, test_emb, threshold)]: [Ok None] is Python's
    [None], [Ok (Some i)] the index [i]. *)
Definition find_match (known_embs : list vec) (test_emb : vec) (threshold : float)
  : result (option nat) :=
  match known_embs with
  | [] => Ok None
  | _ :: _ =>
      let? sims := cosine_similarity known_embs test_emb in
      let? best_idx := np_argmax sims in
      let? best := getitem sims best_idx in
      if (1 - threshold <? best)%float then Ok (Some best_idx) else Ok None
  end.

End Matcher.

(** What section 4.1 asks of the selected index [b] in the similarities
    [l]: it holds a maximum, and every earlier entry is strictly smaller. *)
Definition first_max (l : list float) (b : nat) : Prop :=
  exists v, nth_error l b = Some v
    /\ (forall j w, nth_error l j = Some w -> (w <=? v)%float = true)
    /\ (forall j w, (j < b)%nat -> nth_error l j = Some w -> (w <? v)%float = true).

(** The index of the first [nan] of [l]. *)
Definition first_nan (l : list float) (b : nat) : Prop :=
  exists v, nth_error l b = Some v /\ is_nan v = true
    /\ (forall j w, (j < b)%nat -> nth_error l j = Some w -> is_nan w = false).

(** The place of a number in the order of [float64], read off its
    specification: [nan] has none, the two zeros share one, and among the
    finite numbers of one sign the exponent decides before the mantissa. *)
Definition rank (f : spec_float) : option (Z * Z * Z) :=
  match f with
  | S754_nan => None
  | S754_infinity true => Some (-2, 0, 0)%Z
  | S754_infinity false => Some (2, 0, 0)%Z
  | S754_zero _ => Some (0, 0, 0)%Z
  | S754_finite true m e => Some (-1, - e, Zneg m)%Z
  | S754_finite false m e => Some (1, e, Zpos m)%Z
  end.

Definition lex (a b : Z * Z * Z) : comparison :=
  let '(a1, a2, a3) := a in
  let '(b1, b2, b3) := b in
  match (a1 ?= b1)%Z with
  | Eq => match (a2 ?= b2)%Z with
          | Eq => (a3 ?= b3)%Z
          | c => c
          end
  | c => c
  end.

Definition key_lt (a b : Z * Z * Z) : Prop :=
  let '(a1, a2, a3) := a in
  let '(b1, b2, b3) := b in
  (a1 < b1 \/ (a1 = b1 /\ (a2 < b2 \/ (a2 = b2 /\ a3 < b3))))%Z.

(** ** Rounding in [float64]

    The vocabulary of the one fact about the arithmetic of [float64] that
    is used beyond its order: [1 - t] does not grow with [t].  A finite
    number is measured in units of [2 ^ -1074], the smallest positive
    [float64], so that its value is an integer. *)

Section RoundingVocabulary.

#[local] Open Scope Z_scope.

(** Rounding to nearest, ties to even, of [a / 2 ^ K]. *)
Definition rne (a K : Z) : Z :=
  let q := a / 2 ^ K in
  match 2 * (a mod 2 ^ K) ?= 2 ^ K with
  | Lt => q
  | Eq => if Z.even q then q else q + 1
  | Gt => q + 1
  end.

(** The mantissa and the exponent that rounding gives to the value
    [V * 2 ^ -1074], for a positive integer [V]. *)
Definition rounded (V : Z) : Z * Z :=
  let K := Z.max (Zdigits2 V - 53) 0 in
  let q := rne V K in
  if q =? 2 ^ 53 then (K + 1 - 1074, 2 ^ 52) else (K - 1074, q).

(** The number of sign [s] with mantissa [snd x] and exponent [fst x], or
    the infinity when the exponent is out of range. *)
Definition pack_float (s : bool) (x : Z * Z) : spec_float :=
  match snd x with
  | Z0 => S754_zero s
  | Zpos p => if fst x <=? 971 then S754_finite s p (fst x) else S754_infinity s
  | Zneg _ => S754_nan
  end.

(** The [float64] nearest to the value [W * 2 ^ -1074]. *)
Definition round_signed (W : Z) : spec_float :=
  match W with
  | Z0 => S754_zero false
  | Zpos w => pack_float false (rounded (Zpos w))
  | Zneg w => pack_float true (rounded (Zpos w))
  end.

(** The value of a finite number, in units of [2 ^ -1074]. *)
Definition scaled (x : spec_float) : Z :=
  match x with
  | S754_finite s m e => cond_Zopp s (Zpos m * 2 ^ (e + 1074))
  | _ => 0
  end.

(** A number that is zero or finite and in canonical form. *)
Definition canonical_float (x : spec_float) : Prop :=
  match x with
  | S754_zero _ => True
  | S754_finite _ m e => Z.max (Zpos (digits2_pos m) + e - 53) (-1074) = e
  | _ => False
  end.

(** The number [1.0]. *)
Definition one_spec : spec_float := S754_finite false 4503599627370496 (-52).

End RoundingVocabulary.

(** ** JSON values and Python's operations on them *)

(** What [resp.json()] can return: Python's [None], [bool], number, [str],
    [list] and [dict].  A [dict] is the list of its items, keys distinct. *)
#[local] Unset Elimination Schemes.
Inductive json : Type :=
| JNull
| JBool (b : bool)
| JNum (x : R)
| JStr (s : string)
| JArr (items : list json)
| JObj (fields : list (string * json)).
#[local] Set Elimination Schemes.

Fixpoint lookup (fields : list (string * json)) (key : string) : option json :=
  match fields with
  | [] => None
  | (k, v) :: rest => if String.eqb k key then Some v else lookup rest key
  end.

(** [d[key]] for a string key: defined on a [dict] that has the key. *)
Definition py_getitem (d : json) (key : string) : result json :=
  match d with
  | JObj fields =>
      match lookup fields key with
      | Some v => Ok v
      | None => Raise (KeyError key)
      end
  | _ => Raise TypeError
  end.

(** [d.get(key, default)]: only a [dict] has the method. *)
Definition py_get (d : json) (key : string) (default : json) : result json :=
  match d with
  | JObj fields =>
      match lookup fields key with
      | Some v => Ok v
      | None => Ok default
      end
  | _ => Raise AttributeError
  end.

Fixpoint chars (s : string) : list json :=
  match s with
  | EmptyString => []
  | String c s' => JStr (String c EmptyString) :: chars s'
  end.

(** [for d in data]: a list yields its items, a dict its keys, a string its
    characters; nothing else is iterable. *)
Definition py_iter (data : json) : result (list json) :=
  match data with
  | JArr items => Ok items
  | JObj fields => Ok (map (fun kv => JStr (fst kv)) fields)
  | JStr s => Ok (chars s)
  | _ => Raise TypeError
  end.

(** Python's [str.isspace] on one character; a character of [string] stands
    for the Unicode code point of the same number (U+0000 to U+00FF). *)
Definition py_isspace (c : ascii) : bool :=
  let n := nat_of_ascii c in
  ((9 <=? n) && (n <=? 13) || (28 <=? n) && (n <=? 32)
   || (n =? 133) || (n =? 160))%nat.

Fixpoint lstrip (s : string) : string :=
  match s with
  | EmptyString => EmptyString
  | String c s' => if py_isspace c then lstrip s' else s
  end.

Fixpoint rstrip (s : string) : string :=
  match s with
  | EmptyString => EmptyString
  | String c s' =>
      match rstrip s' with
      | EmptyString => if py_isspace c then EmptyString else String c EmptyString
      | r => String c r
      end
  end.

(** [s.strip()]. *)
Definition strip (s : string) : string := rstrip (lstrip s).

(** Python's truth value of a [str]: [not s] holds of the empty string. *)
Definition py_not (s : string) : bool :=
  match s with
  | EmptyString => true
  | String _ _ => false
  end.

(** The text form of floating-point numbers is NumPy's and Python's own;
    the two library functions are parameters of the development:
    [np_fromstring s] is [np.fromstring(s, sep=",")] on a [str] (an array,
    or an exception), [float_str x] is [str(x)]. *)
Class FloatText : Type := {
  np_fromstring : string -> result vec;
  float_str : float -> string
}.

(** ** Page elements *)

Inductive level : Type := error | warning | info | success.

(** The texts that [fetch_registered], [post_student] and the blocks of the
    buttons pass to [st.error], [st.warning], [st.info] and [st.success],
    with the values interpolated into them. *)
Inductive text : Type :=
| SkippedCorruptedEncoding (name : json)
| FailedToParseEncoding (name : json)
| FailedToFetch (e : exn)
| UploadFailed (e : exn)
| NoFaceEmbedding
| EnterNameAndId
| SamePersonDetected (name : json)
| RegisteredSuccessfully
| NoStudentsRegistered
| WelcomeBack (name : json)
| FaceNotRecognised.

Definition message : Type := (level * text)%type.

(** ** The KnownSet *)

(** The triple [names, embs, full] that [fetch_registered] returns. *)
Record knownset : Type := {
  names : list json;
  embs : list vec;
  full : list json
}.

Definition empty_known : knownset :=
  {| names := []; embs := []; full := [] |}.

(** ** The world of a script run *)

(** Modelled from the spec: the remote endpoint behind [GAS_ENDPOINT] is no
    part of the repository; this is how it answers one request (section 6
    and the failures of section 7): as specified, not at all, or with an
    arbitrary status and body. *)
Inductive reply : Type :=
| Served
| Unreachable (cause : string)
| Answered (status : Z) (body : option json).

Inductive request : Type :=
| GET
| POST (row : json).

(** What [requests.get] and [requests.post] return; [None] is a body that
    is not JSON. *)
Record response : Type := {
  status_code : Z;
  body : option json
}.

Record state : Type := {
  sheet : list json;           (* the rows the remote store holds *)
  replies : list reply;        (* how the next requests are answered *)
  sent : list request;         (* the requests issued so far, oldest first *)
  cache : option (knownset * list message);
                               (* the [st.cache_data] entry of [fetch_registered] *)
  session : option json;       (* [st.session_state["logged_in"]] *)
  ui : list message            (* the elements that the modelled code has put
                                  on the page, oldest first *)
}.

Definition M (A : Type) : Type := state -> result A * state.

Definition ret {A : Type} (a : A) : M A := fun s => (Ok a, s).

Definition raise {A : Type} (e : exn) : M A := fun s => (Raise e, s).

Definition bind {A B : Type} (m : M A) (k : A -> M B) : M B :=
  fun s =>
    match m s with
    | (Ok a, s') => k a s'
    | (Raise e, s') => (Raise e, s')
    end.

(** [try: m  except Exception as e: h e]. *)
Definition try_except {A : Type} (m : M A) (h : exn -> M A) : M A :=
  fun s =>
    match m s with
    | (Ok a, s') => (Ok a, s')
    | (Raise e, s') => h e s'
    end.

Definition lift {A : Type} (r : result A) : M A := fun s => (r, s).

Notation "x <- m ;; k" := (bind m (fun x => k))
  (at level 61, m at next level, right associativity).
Notation "m ;; k" := (bind m (fun _ => k))
  (at level 61, right associativity).

Definition set_ui (u : list message) (s : state) : state :=
  {| sheet := sheet s; replies := replies s; sent := sent s;
     cache := cache s; session := session s; ui := u |}.

Definition set_cache (c : option (knownset * list message)) (s : state) : state :=
  {| sheet := sheet s; replies := replies s; sent := sent s;
     cache := c; session := session s; ui := ui s |}.

Definition set_session (v : option json) (s : state) : state :=
  {| sheet := sheet s; replies := replies s; sent := sent s;
     cache := cache s; session := v; ui := ui s |}.

(** One request leaves: it is logged, and the next reply is consumed. *)
Definition send (rq : request) (rows : list json) (s : state) : state :=
  {| sheet := rows; replies := tl (replies s); sent := sent s ++ [rq];
     cache := cache s; session := session s; ui := ui s |}.

(** An endpoint with no scripted reply left works as specified. *)
Definition next_reply (s : state) : reply :=
  match replies s with
  | [] => Served
  | r :: _ => r
  end.

Definition emit (m : message) : M unit :=
  fun s => (Ok tt, set_ui (ui s ++ [m]) s).

Definition st_error (t : text) : M unit := emit (error, t).
Definition st_warning (t : text) : M unit := emit (warning, t).
Definition st_info (t : text) : M unit := emit (info, t).
Definition st_success (t : text) : M unit := emit (success, t).

(** Modelled from the spec: [requests.get(GAS_ENDPOINT, timeout=10)]
    against the Record Store fetch of section 6.  A served GET answers 200
    with the list of the stored rows; the call raises when the endpoint
    cannot be reached in time. *)
Definition requests_get : M response :=
  fun s =>
    let s' := send GET (sheet s) s in
    match next_reply s with
    | Served => (Ok {| status_code := 200; body := Some (JArr (sheet s)) |}, s')
    | Unreachable cause => (Raise (RequestException cause), s')
    | Answered st b => (Ok {| status_code := st; body := b |}, s')
    end.

(** Modelled from the spec: [requests.post(GAS_ENDPOINT, json=row,
    timeout=10)] against the Record Store append of section 6.  A served
    POST adds the row after the stored ones and answers 200; any other reply
    leaves the stored rows as they are. *)
Definition requests_post (row : json) : M response :=
  fun s =>
    match next_reply s with
    | Served =>
        (Ok {| status_code := 200; body := None |},
         send (POST row) (sheet s ++ [row]) s)
    | Unreachable cause =>
        (Raise (RequestException cause), send (POST row) (sheet s) s)
    | Answered st b =>
        (Ok {| status_code := st; body := b |}, send (POST row) (sheet s) s)
    end.

(** [resp.raise_for_status()]: [HTTPError] on a 4xx or 5xx status. *)
Definition raise_for_status (resp : response) : M unit :=
  if ((400 <=? status_code resp) && (status_code resp <? 600))%Z
  then raise (HTTPError (status_code resp))
  else ret tt.

(** [resp.json()]. *)
Definition resp_json (resp : response) : M json :=
  match body resp with
  | Some j => ret j
  | None => raise JSONDecodeError
  end.

(** ** The program *)

Section Program.

Context {FT : FloatText} {SK : Sklearn}.

(** [np.fromstring(v, sep=",")] on a JSON value: only text is accepted. *)
Definition np_fromstring_value (v : json) : result vec :=
  match v with
  | JStr s => np_fromstring s
  | _ => Raise TypeError
  end.

(** [names.append(name); embs.append(emb); full.append(d)]. *)
Definition append_record (acc : knownset) (name : json) (emb : vec) (d : json)
  : knownset :=
  {| names := names acc ++ [name];
     embs := embs acc ++ [emb];
     full := full acc ++ [d] |}.

(** The body of the [for d in data] loop of [fetch_registered] (lines 23 to
    32), on the lists built so far. *)
Definition fetch_step (d : json) (acc : knownset) : M knownset :=
  try_except
    (enc <- lift (py_getitem d "encoding") ;;
     emb <- lift (np_fromstring_value enc) ;;
     if (length emb =? EMB_SIZE)%nat
     then
       name <- lift (py_getitem d "name") ;;
       ret (append_record acc name emb d)
     else
       name <- lift (py_getitem d "name") ;;
       st_warning (SkippedCorruptedEncoding name) ;;
       ret acc)
    (fun _ =>
       name <- lift (py_get d "name" (JStr "Unknown")) ;;
       st_warning (FailedToParseEncoding name) ;;
       ret acc).

Fixpoint fetch_loop (data : list json) (acc : knownset) : M knownset :=
  match data with
  | [] => ret acc
  | d :: rest => acc' <- fetch_step d acc ;; fetch_loop rest acc'
  end.

(** The function under [@st.cache_data]: lines 17 to 36. *)
Definition fetch_registered_body : M knownset :=
  try_except
    (resp <- requests_get ;;
     raise_for_status resp ;;
     data <- resp_json resp ;;
     items <- lift (py_iter data) ;;
     fetch_loop items empty_known)
    (fun e => st_error (FailedToFetch e) ;; ret empty_known).

(** [fetch_registered()] through [st.cache_data]: a cached call returns the
    stored value and replays the elements the body had put on the page; a
    call that misses runs the body and stores both. *)
Definition fetch_registered : M knownset :=
  fun s =>
    match cache s with
    | Some (ks, msgs) => (Ok ks, set_ui (ui s ++ msgs) s)
    | None =>
        match fetch_registered_body (set_ui [] s) with
        | (Ok ks, s') =>
            (Ok ks, set_cache (Some (ks, ui s')) (set_ui (ui s ++ ui s') s'))
        | (Raise e, s') => (Raise e, set_ui (ui s ++ ui s') s')
        end
    end.

(** [fetch_registered.clear()]. *)
Definition fetch_registered_clear : M unit :=
  fun s => (Ok tt, set_cache None s).

(** [post_student(row)]: lines 39 to 43. *)
Definition post_student (row : json) : M unit :=
  try_except
    (resp <- requests_post row ;; raise_for_status resp)
    (fun e => st_error (UploadFailed e)).

(** [",".join(map(str, emb.tolist()))]. *)
Definition encoding_text (emb : vec) : string :=
  String.concat "," (map float_str emb).

(** The dictionary [new_row] of lines 114 to 119; [now] is the reading of
    [datetime.datetime.now().isoformat()]. *)
Definition new_row (now sid name : string) (emb : vec) : json :=
  JObj [ ("timestamp", JStr now);
         ("student_id", JStr (strip sid));
         ("name", JStr (strip name));
         ("encoding", JStr (encoding_text emb)) ]%string.

(** The block under [if st.button("Register")] (lines 105 to 123), given the
    KnownSet loaded at the top of the run and the widgets' values; [emb] is
    [None] when no embedding was extracted.  It returns the KnownSet that
    the rest of the run sees. *)
Definition register_click (known : knownset) (emb : option vec)
    (name sid now : string) : M knownset :=
  match emb with
  | None => st_error NoFaceEmbedding ;; ret known
  | Some e =>
      if py_not (strip name) || py_not (strip sid)
      then st_error EnterNameAndId ;; ret known
      else
        match_idx <- lift (find_match (embs known) e default_threshold) ;;
        match match_idx with
        | Some i =>
            n <- lift (getitem (names known) i) ;;
            st_info (SamePersonDetected n) ;;
            ret known
        | None =>
            post_student (new_row now sid name e) ;;
            st_success RegisteredSuccessfully ;;
            fetch_registered_clear ;;
            fetch_registered
        end
  end.

(** The block under [if st.button("Login", disabled=login_emb is None)]
    (lines 145 to 154): a disabled button is never pressed. *)
Definition login_click (known : knownset) (login_emb : option vec) : M unit :=
  match login_emb with
  | None => ret tt
  | Some e =>
      match embs known with
      | [] => st_error NoStudentsRegistered
      | _ :: _ =>
          match_idx <- lift (find_match (embs known) e default_threshold) ;;
          match match_idx with
          | Some i =>
              n <- lift (getitem (names known) i) ;;
              st_success (WelcomeBack n) ;;
              (fun s => (Ok tt, set_session (Some n) s))
          | None => st_error FaceNotRecognised
          end
      end
  end.

(** What the user did to start a run of the script. *)
Inductive event : Type :=
| Rerun
| ClickRefresh
| ClickRegister (emb : option vec) (name sid now : string)
| ClickLogin (login_emb : option vec)
| ClickLogout.

(** One run of the script, top to bottom, on a fresh page.  Refresh clears
    the cache and starts the script over; every run loads the KnownSet
    (line 78) before it reaches the pressed button.  The capture blocks
    (lines 91 to 101 and 133 to 143) are outside: their result is the
    embedding that the event carries, and their elements, like the table of
    line 126 and the line of line 157, are not put on the page of the
    model. *)
Definition script_run (ev : event) : M unit :=
  (fun s => (Ok tt, set_ui [] s)) ;;
  match ev with
  | ClickRefresh => fetch_registered_clear
  | _ => ret tt
  end ;;
  known <- fetch_registered ;;
  match ev with
  | ClickRegister emb name sid now =>
      register_click known emb name sid now ;; ret tt
  | ClickLogin login_emb => login_click known login_emb
  | ClickLogout => fun s => (Ok tt, set_session None s)
  | Rerun | ClickRefresh => ret tt
  end.

End Program.

(** ** Vocabulary of the specification *)

(** Text that holds white space only. *)
Fixpoint all_space (s : string) : bool :=
  match s with
  | EmptyString => true
  | String c s' => py_isspace c && all_space s'
  end.

(** Compatible shapes: the query has at least one component and every
    known embedding has the query's dimension. *)
Definition shapes_agree (known : list vec) (q : vec) : Prop :=
  (0 < length q)%nat /\ Forall (fun k => length k = length q) known.

(** Entries that [check_array] accepts: none is [nan] or infinite, in the
    query and in every known embedding. *)
Definition entries_finite (known : list vec) (q : vec) : Prop :=
  all_finite q = true /\ Forall (fun k => all_finite k = true) known.

(** The lists of a KnownSet have been built in lockstep. *)
Definition lockstep (ks : knownset) : Prop :=
  length (names ks) = length (embs ks) /\ length (full ks) = length (embs ks).

(** A cached KnownSet is in lockstep. *)
Definition cache_ok (s : state) : Prop :=
  match cache s with
  | Some (ks, _) => lockstep ks
  | None => True
  end.

(** A fetched item that is a record, that is, a JSON object. *)
Definition is_record (d : json) : bool :=
  match d with
  | JObj _ => true
  | _ => false
  end.

(** The store-level failures of one request (section 7): the request does
    not get through, or the status is an error status. *)
Definition request_failure (r : reply) : option exn :=
  match r with
  | Served => None
  | Unreachable cause => Some (RequestException cause)
  | Answered st b =>
      if ((400 <=? st) && (st <? 600))%Z then Some (HTTPError st) else None
  end.

(** The store-level failures of a fetch: those of the request, a body that
    is not JSON, and a body that is nothing to iterate over. *)
Definition fetch_failure (r : reply) : option exn :=
  match request_failure r, r with
  | Some e, _ => Some e
  | None, Answered _ None => Some JSONDecodeError
  | None, Answered _ (Some data) =>
      match py_iter data with
      | Ok _ => None
      | Raise e => Some e
      end
  | None, _ => None
  end.

(** One KnownSet after the other. *)
Definition known_app (a b : knownset) : knownset :=
  {| names := names a ++ names b;
     embs := embs a ++ embs b;
     full := full a ++ full b |}.

(** The rows a fetch gets to iterate over: the stored rows when the
    endpoint works as specified, or the list a successful reply carries. *)
Definition fetched_rows (s : state) : option (list json) :=
  match next_reply s with
  | Served => Some (sheet s)
  | Answered st (Some (JArr rows)) =>
      if ((400 <=? st) && (st <? 600))%Z then None else Some rows
  | _ => None
  end.

Section Vocabulary.

Context {FT : FloatText} {SK : Sklearn}.

(** The embedding a record contributes: its encoding, when that is present,
    parses, and has exactly 128 components. *)
Definition encoding_of (d : json) : option vec :=
  match py_getitem d "encoding" with
  | Ok enc =>
      match np_fromstring_value enc with
      | Ok emb => if (length emb =? EMB_SIZE)%nat then Some emb else None
      | Raise _ => None
      end
  | Raise _ => None
  end.

(** The KnownSet entry of a record: its name and embedding, when it has
    both. *)
Definition entry_of (d : json) : option (json * vec) :=
  match encoding_of d, py_getitem d "name" with
  | Some emb, Ok name => Some (name, emb)
  | _, _ => None
  end.

Definition admitted (d : json) : bool :=
  match entry_of d with
  | Some _ => true
  | None => false
  end.

Fixpoint entries (rows : list json) : list (json * vec) :=
  match rows with
  | [] => []
  | d :: rest =>
      match entry_of d with
      | Some e => e :: entries rest
      | None => entries rest
      end
  end.

(** The records of [rows] that are dropped. *)
Definition dropped (rows : list json) : list json :=
  filter (fun d => negb (admitted d)) rows.

(** The KnownSet section 3 derives from the fetched records. *)
Definition known_of (rows : list json) : knownset :=
  {| names := map fst (entries rows);
     embs := map snd (entries rows);
     full := filter admitted rows |}.


(** The states of a session: one run of the script after the other, each
    on the state the previous one left. *)
Fixpoint session_after (evs : list event) (s : state) : state :=
  match evs with
  | [] => s
  | ev :: rest => session_after rest (snd (script_run ev s))
  end.

End Vocabulary.

(** The stored rows after a POST of [row] that gets the reply [r]. *)
Definition rows_after_post (r : reply) (rows : list json) (row : json)
  : list json :=
  match r with
  | Served => rows ++ [row]
  | _ => rows
  end.

(** Two states that differ at most in the page. *)
Definition same_but_ui (s s' : state) : Prop :=
  sheet s' = sheet s /\ replies s' = replies s /\ sent s' = sent s
  /\ cache s' = cache s /\ session s' = session s.

(** ** Vocabulary of the runs *)

(** The state in which a run reaches line 78: the page is empty, and
    Refresh has cleared the cache. *)
Definition start (ev : event) (s : state) : state :=
  match ev with
  | ClickRefresh => set_cache None (set_ui [] s)
  | _ => set_ui [] s
  end.

(** Whether line 78 runs the body of [fetch_registered]. *)
Definition fetches (ev : event) (s : state) : bool :=
  match ev, cache s with
  | ClickRefresh, _ => true
  | _, None => true
  | _, Some _ => false
  end.

(** The embedding a pressed button comes with, if any, has 128 components,
    none of them [nan] or infinite. *)
Definition event_ok (ev : event) : Prop :=
  match ev with
  | ClickRegister (Some e) _ _ _ => length e = EMB_SIZE /\ all_finite e = true
  | ClickLogin (Some e) => length e = EMB_SIZE /\ all_finite e = true
  | _ => True
  end.

(** The embeddings of a KnownSet hold no [nan] and no infinite entry. *)
Definition finite_known (ks : knownset) : Prop :=
  forallb all_finite (embs ks) = true.

Section RunVocabulary.

Context {FT : FloatText} {SK : Sklearn}.

(** The three lists of a KnownSet tell of the same records: at every index
    the name and the embedding are the ones of the record at that index. *)
Definition aligned (ks : knownset) : Prop :=
  lockstep ks
  /\ forall i d, nth_error (full ks) i = Some d ->
       exists n e,
         nth_error (names ks) i = Some n
         /\ nth_error (embs ks) i = Some e
         /\ entry_of d = Some (n, e).

Definition cache_aligned (s : state) : Prop :=
  match cache s with
  | Some (ks, _) => aligned ks
  | None => True
  end.

(** The block of the pressed button, on the KnownSet that line 78 loaded. *)
Definition handler (ev : event) (known : knownset) : M unit :=
  match ev with
  | ClickRegister emb name sid now =>
      register_click known emb name sid now ;; ret tt
  | ClickLogin login_emb => login_click known login_emb
  | ClickLogout => fun s => (Ok tt, set_session None s)
  | Rerun | ClickRefresh => ret tt
  end.


(** The row that the Register button posts when the run has loaded [ks]. *)
Definition registers (ks : knownset) (ev : event) : option json :=
  match ev with
  | ClickRegister (Some e) name sid now =>
      if py_not (strip name) || py_not (strip sid) then None
      else
        match find_match (embs ks) e default_threshold with
        | Ok None => Some (new_row now sid name e)
        | _ => None
        end
  | _ => None
  end.

End RunVocabulary.

(** ** Sample data *)

Definition ones : vec := repeat 1%float EMB_SIZE.

Definition zeros : vec := repeat 0%float EMB_SIZE.

(** An array that [np.fromstring] returns for 128 times the text ["nan"]. *)
Definition nans : vec := repeat nan EMB_SIZE.

(** The vectors of the example of section 8: a unit vector, a vector at
    cosine similarity 0.95 to it, and a unit vector orthogonal to it. *)
Definition unit_x : vec := 1%float :: repeat 0%float 127.

Definition near_x : vec := 19%float :: PrimFloat.sqrt 39 :: repeat 0%float 126.

Definition unit_y : vec := 0%float :: 1%float :: repeat 0%float 126.

Definition ones_text : string := String.concat "," (repeat "1.0"%string EMB_SIZE).

Definition zeros_text : string := String.concat "," (repeat "0.0"%string EMB_SIZE).

Definition nans_text : string := String.concat "," (repeat "nan"%string EMB_SIZE).

(** A reading of number text that covers the sample data: [str(1.0)] is
    ["1.0"], [str(0.0)] is ["0.0"], [str] of [nan] is ["nan"], and
    [np.fromstring] reads the four sample encodings. *)
Definition sample_text : FloatText := {|
  np_fromstring s :=
    if String.eqb s ones_text then Ok ones
    else if String.eqb s zeros_text then Ok zeros
    else if String.eqb s nans_text then Ok nans
    else if String.eqb s "1,2,3" then Ok [1; 2; 3]%float
    else Ok [];
  float_str x :=
    if is_nan x then "nan"%string
    else if (x =? 0)%float then "0.0"%string else "1.0"%string
|}.

(** A reading of the library's arithmetic for the sample data: every sum is
    taken from left to right, in [float64].  [sklearn] adds in the order of
    the BLAS kernel it is linked with, so its similarities can differ from
    these in the last bits; the theorems are proved for every [Sklearn],
    and on the sample data no outcome hangs on the last bits. *)
Fixpoint dot_from (acc : float) (x y : vec) : float :=
  match x, y with
  | a :: x', b :: y' => dot_from (acc + a * b)%float x' y'
  | _, _ => acc
  end.

Definition dot (x y : vec) : float := dot_from 0%float x y.

(** [sklearn.utils.extmath.row_norms]: the Euclidean norm of a row. *)
Definition row_norm (x : vec) : float := PrimFloat.sqrt (dot x x).

(** [numpy.finfo(numpy.float64).eps]. *)
Definition float_eps : float := 0x1p-52%float.

(** [sklearn.preprocessing._data._handle_zeros_in_scale]: a norm below
    [10 * eps] is replaced by one, so that a row of zeros stays a row of
    zeros instead of being divided by 0. *)
Definition handle_zeros_in_scale (n : float) : float :=
  if (n <? 10 * float_eps)%float then 1%float else n.

(** [sklearn.preprocessing.normalize(x, norm="l2")] on one row. *)
Definition normalize (x : vec) : vec :=
  let n := handle_zeros_in_scale (row_norm x) in
  map (fun a => (a / n)%float) x.

(** One entry of the product of the normalised matrices. *)
Definition similarity (k y : vec) : float := dot (normalize k) (normalize y).

Definition sequential : Sklearn := {|
  pairwise_cosine X y := map (fun k => similarity k y) X;
  pairwise_cosine_length X y := length_map (fun k => similarity k y) X
|}.

(** A session that has fetched nothing yet, on an empty store that works
    as specified. *)
Definition fresh : state :=
  {| sheet := []; replies := []; sent := []; cache := None;
     session := None; ui := [] |}.

(** The same, with the next request timing out. *)
Definition offline : state :=
  {| sheet := []; replies := [Unreachable "Read timed out"]; sent := [];
     cache := None; session := None; ui := [] |}.

(** The record of a student registered with the embedding [ones]. *)
Definition ann_row : json :=
  JObj [ ("timestamp", JStr "2024-05-01T09:00:00");
         ("student_id", JStr "S001");
         ("name", JStr "Ann");
         ("encoding", JStr ones_text) ]%string.

(** A record whose encoding has three components. *)
Definition short_row : json :=
  JObj [ ("timestamp", JStr "2024-05-01T09:05:00");
         ("student_id", JStr "S002");
         ("name", JStr "Bob");
         ("encoding", JStr "1,2,3") ]%string.

Definition ann_known : knownset :=
  {| names := [JStr "Ann"]; embs := [ones]; full := [ann_row] |}.

(** A session that holds Ann's record in its cache while the store cannot
    be reached. *)
Definition ann_cached_offline : state :=
  {| sheet := [ann_row]; replies := [Unreachable "Read timed out"];
     sent := [GET]; cache := Some (ann_known, []); session := None; ui := [] |}.

(** A session that has fetched nothing yet, on a store that holds the
    three-component record before Ann's. *)
Definition two_stored : state :=
  {| sheet := [short_row; ann_row]; replies := []; sent := []; cache := None;
     session := None; ui := [] |}.

(** A session whose cache holds an empty KnownSet, fetched before the two
    sample records were stored. *)
Definition stale_cache : state :=
  {| sheet := [short_row; ann_row]; replies := []; sent := [GET];
     cache := Some (empty_known, []); session := None; ui := [] |}.

(** A session that has fetched nothing yet, whose next request is answered
    with a list that holds Ann's record and a text. *)
Definition mixed_list : state :=
  {| sheet := []; replies := [Answered 200 (Some (JArr [ann_row; JStr "n/a"]))];
     sent := []; cache := None; session := None; ui := [] |}.

(** A record whose encoding is 128 times the text ["nan"]. *)
Definition nan_row : json :=
  JObj [ ("timestamp", JStr "2024-05-01T09:10:00");
         ("student_id", JStr "S003");
         ("name", JStr "Cy");
         ("encoding", JStr nans_text) ]%string.

(** A session that has fetched nothing yet, on a store that holds Ann's
    record and the record of [nan]s. *)
Definition nan_stored : state :=
  {| sheet := [ann_row; nan_row]; replies := []; sent := []; cache := None;
     session := None; ui := [] |}.



(** * Verification *)

(** ** The order of [float64] *)

Lemma SFcompare_rank (x y : spec_float) :
  SFcompare x y
  = match rank x, rank y with
    | Some a, Some b => Some (lex a b)
    | _, _ => None
    end.
Proof.
  destruct x as [[|]|[|]| |[|] mx ex], y as [[|]|[|]| |[|] my ey];
    try reflexivity; cbn.
  rewrite Z.compare_opp, (Z.compare_antisym ex ey).
  destruct (ex ?= ey)%Z; reflexivity.
Qed.

Lemma lex_spec (a b : Z * Z * Z) :
  match lex a b with
  | Lt => key_lt a b
  | Eq => a = b
  | Gt => key_lt b a
  end.
Proof.
  destruct a as [[a1 a2] a3], b as [[b1 b2] b3]. cbn.
  destruct (Z.compare_spec a1 b1); [|lia..].
  destruct (Z.compare_spec a2 b2); [|lia..].
  destruct (Z.compare_spec a3 b3); [|lia..].
  congruence.
Qed.

Lemma key_lt_irrefl (a : Z * Z * Z) : ~ key_lt a a.
Proof. destruct a as [[a1 a2] a3]. cbn. lia. Qed.

Lemma key_lt_trans (a b c : Z * Z * Z) : key_lt a b -> key_lt b c -> key_lt a c.
Proof.
  destruct a as [[a1 a2] a3], b as [[b1 b2] b3], c as [[c1 c2] c3]. cbn. lia.
Qed.

Lemma key_lt_total (a b : Z * Z * Z) : key_lt a b \/ a = b \/ key_lt b a.
Proof.
  pose proof (lex_spec a b) as H. destruct (lex a b); auto.
Qed.

Lemma float_ltb_rank (x y : float) :
  (x <? y)%float = true
  <-> exists a b, rank (Prim2SF x) = Some a /\ rank (Prim2SF y) = Some b
                  /\ key_lt a b.
Proof.
  rewrite FloatAxioms.ltb_spec. unfold SFltb. rewrite SFcompare_rank.
  destruct (rank (Prim2SF x)) as [a|], (rank (Prim2SF y)) as [b|];
    try (split; [discriminate|intros (a' & b' & H1 & H2 & _); discriminate]).
  pose proof (lex_spec a b) as H. split.
  - destruct (lex a b); try discriminate. intros _. exists a, b. auto.
  - intros (a' & b' & [= <-] & [= <-] & Hlt).
    destruct (lex a b); [|reflexivity|].
    + subst b. exfalso. exact (key_lt_irrefl a Hlt).
    + exfalso. exact (key_lt_irrefl a (key_lt_trans _ _ _ Hlt H)).
Qed.

Lemma float_leb_rank (x y : float) :
  (x <=? y)%float = true
  <-> exists a b, rank (Prim2SF x) = Some a /\ rank (Prim2SF y) = Some b
                  /\ (key_lt a b \/ a = b).
Proof.
  rewrite FloatAxioms.leb_spec. unfold SFleb. rewrite SFcompare_rank.
  destruct (rank (Prim2SF x)) as [a|], (rank (Prim2SF y)) as [b|];
    try (split; [discriminate|intros (a' & b' & H1 & H2 & _); discriminate]).
  pose proof (lex_spec a b) as H. split.
  - destruct (lex a b); try discriminate; intros _; exists a, b; auto.
  - intros (a' & b' & [= <-] & [= <-] & Hle).
    destruct (lex a b); [reflexivity..|].
    exfalso. destruct Hle as [Hlt| ->].
    + exact (key_lt_irrefl a (key_lt_trans _ _ _ Hlt H)).
    + exact (key_lt_irrefl b H).
Qed.

Lemma float_number_rank (x : float) :
  is_nan x = false <-> exists a, rank (Prim2SF x) = Some a.
Proof.
  unfold is_nan. rewrite FloatAxioms.eqb_spec. unfold SFeqb. rewrite SFcompare_rank.
  destruct (rank (Prim2SF x)) as [a|].
  - pose proof (lex_spec a a) as H. split; [eauto|]. intros _.
    destruct (lex a a); [reflexivity| |]; exfalso; exact (key_lt_irrefl a H).
  - split; [discriminate|]. intros (a & H). discriminate.
Qed.

(** A comparison that holds compares numbers. *)
Lemma float_leb_number (x y : float) :
  (x <=? y)%float = true -> is_nan x = false /\ is_nan y = false.
Proof.
  intros H. apply float_leb_rank in H. destruct H as (a & b & Ha & Hb & _).
  split; apply float_number_rank; eauto.
Qed.

Lemma float_ltb_number (x y : float) :
  (x <? y)%float = true -> is_nan x = false /\ is_nan y = false.
Proof.
  intros H. apply float_ltb_rank in H. destruct H as (a & b & Ha & Hb & _).
  split; apply float_number_rank; eauto.
Qed.

Lemma float_leb_refl (x : float) : is_nan x = false -> (x <=? x)%float = true.
Proof.
  intros H. apply float_number_rank in H. destruct H as (a & Ha).
  apply float_leb_rank. exists a, a. auto.
Qed.

Lemma float_ltb_leb (x y : float) :
  (x <? y)%float = true -> (x <=? y)%float = true.
Proof.
  intros H. apply float_ltb_rank in H. destruct H as (a & b & Ha & Hb & Hlt).
  apply float_leb_rank. exists a, b. auto.
Qed.

(** Two numbers compare one way or the other. *)
Lemma float_leb_total (x y : float) :
  is_nan x = false -> is_nan y = false ->
  (x <=? y)%float = false -> (y <? x)%float = true.
Proof.
  intros Hx Hy Hle.
  apply float_number_rank in Hx. destruct Hx as (a & Ha).
  apply float_number_rank in Hy. destruct Hy as (b & Hb).
  apply float_ltb_rank. exists b, a. split; [assumption|]. split; [assumption|].
  destruct (key_lt_total a b) as [H|[H|H]]; [| |assumption]; exfalso;
    (assert (Ht : (x <=? y)%float = true)
       by (apply float_leb_rank; exists a, b; auto); congruence).
Qed.

Lemma float_leb_trans (x y z : float) :
  (x <=? y)%float = true -> (y <=? z)%float = true -> (x <=? z)%float = true.
Proof.
  intros H1 H2. apply float_leb_rank in H1, H2.
  destruct H1 as (a & b & Ha & Hb & H1), H2 as (b' & c & Hb' & Hc & H2).
  assert (b' = b) by congruence. subst b'.
  apply float_leb_rank. exists a, c. split; [assumption|]. split; [assumption|].
  destruct H1 as [H1| ->], H2 as [H2| ->]; auto.
  left. eapply key_lt_trans; eassumption.
Qed.

Lemma float_leb_ltb_trans (x y z : float) :
  (x <=? y)%float = true -> (y <? z)%float = true -> (x <? z)%float = true.
Proof.
  intros H1 H2. apply float_leb_rank in H1. apply float_ltb_rank in H2.
  destruct H1 as (a & b & Ha & Hb & H1), H2 as (b' & c & Hb' & Hc & H2).
  assert (b' = b) by congruence. subst b'.
  apply float_ltb_rank. exists a, c. split; [assumption|]. split; [assumption|].
  destruct H1 as [H1| ->]; [eapply key_lt_trans; eassumption|assumption].
Qed.

Lemma float_ltb_leb_trans (x y z : float) :
  (x <? y)%float = true -> (y <=? z)%float = true -> (x <? z)%float = true.
Proof.
  intros H1 H2. apply float_ltb_rank in H1. apply float_leb_rank in H2.
  destruct H1 as (a & b & Ha & Hb & H1), H2 as (b' & c & Hb' & Hc & H2).
  assert (b' = b) by congruence. subst b'.
  apply float_ltb_rank. exists a, c. split; [assumption|]. split; [assumption|].
  destruct H2 as [H2| <-]; [eapply key_lt_trans; eassumption|assumption].
Qed.

Lemma float_ltb_not_leb (x y : float) :
  (x <? y)%float = true -> (y <=? x)%float = true -> False.
Proof.
  intros H1 H2.
  pose proof (float_ltb_leb_trans _ _ _ H1 H2) as H.
  apply float_ltb_rank in H. destruct H as (a & a' & Ha & Ha' & Hlt).
  assert (a' = a) by congruence. subst a'. exact (key_lt_irrefl a Hlt).
Qed.

(** ** Rounding: subtraction from one turns the order round *)

Section Rounding.

#[local] Open Scope Z_scope.

Lemma pow2_pos (k : Z) : 0 <= k -> 0 < 2 ^ k.
Proof. intros H. apply Z.pow_pos_nonneg; lia. Qed.

Lemma rne_exact (x K : Z) : 0 <= K -> rne (x * 2 ^ K) K = x.
Proof.
  intros HK. pose proof (pow2_pos K HK) as Hp. unfold rne.
  rewrite Z.mod_mul, Z.div_mul by lia.
  destruct (Z.compare_spec (2 * 0) (2 ^ K)); lia.
Qed.

Lemma rne_scale (a K j : Z) :
  0 <= K -> 0 <= j -> rne (a * 2 ^ j) (K + j) = rne a K.
Proof.
  intros HK Hj. pose proof (pow2_pos K HK) as Hp. pose proof (pow2_pos j Hj) as Hq.
  unfold rne. rewrite Z.pow_add_r by lia.
  rewrite Z.div_mul_cancel_r by lia.
  rewrite Z.mul_mod_distr_r by lia.
  replace (2 * (a mod 2 ^ K * 2 ^ j)) with ((2 * (a mod 2 ^ K)) * 2 ^ j) by ring.
  destruct (Z.compare_spec (2 * (a mod 2 ^ K)) (2 ^ K)) as [E|E|E].
  - rewrite E, Z.compare_refl. reflexivity.
  - assert (H : 2 * (a mod 2 ^ K) * 2 ^ j < 2 ^ K * 2 ^ j) by nia.
    apply Z.compare_lt_iff in H. rewrite H. reflexivity.
  - assert (H : 2 ^ K * 2 ^ j < 2 * (a mod 2 ^ K) * 2 ^ j) by nia.
    apply Z.compare_gt_iff in H. rewrite H. reflexivity.
Qed.

Lemma rne_bounds (a K : Z) : 0 <= K -> a / 2 ^ K <= rne a K <= a / 2 ^ K + 1.
Proof.
  intros HK. unfold rne.
  destruct (2 * (a mod 2 ^ K) ?= 2 ^ K); [destruct (Z.even _)|..]; lia.
Qed.

Lemma rne_mono (a b K : Z) : 0 <= K -> a <= b -> rne a K <= rne b K.
Proof.
  intros HK Hab. pose proof (pow2_pos K HK) as Hp.
  pose proof (Z.div_le_mono a b (2 ^ K) Hp Hab) as Hq.
  destruct (Z.eq_dec (a / 2 ^ K) (b / 2 ^ K)) as [E|N].
  - assert (Hr : a mod 2 ^ K <= b mod 2 ^ K).
    { pose proof (Z.div_mod a (2 ^ K)). pose proof (Z.div_mod b (2 ^ K)). nia. }
    unfold rne. rewrite E.
    destruct (Z.compare_spec (2 * (a mod 2 ^ K)) (2 ^ K));
      destruct (Z.compare_spec (2 * (b mod 2 ^ K)) (2 ^ K));
      destruct (Z.even (b / 2 ^ K)); lia.
  - pose proof (rne_bounds a K HK). pose proof (rne_bounds b K HK). lia.
Qed.

(** *** The shift to the right *)

Lemma iter_pos_nat {A : Type} (f : A -> A) (p : positive) (x : A) :
  SpecFloat.iter_pos f p x = Nat.iter (Pos.to_nat p) f x.
Proof.
  revert x. induction p as [p IH|p IH|]; intros x; cbn [SpecFloat.iter_pos].
  - rewrite !IH, Pos2Nat.inj_xI, <- Nat.iter_add, <- Nat.iter_succ_r.
    f_equal. lia.
  - rewrite !IH, Pos2Nat.inj_xO, <- Nat.iter_add. f_equal. lia.
  - reflexivity.
Qed.

Lemma shr_1_spec (m : Z) (r s : bool) :
  0 <= m ->
  shr_1 (Build_shr_record m r s) = Build_shr_record (m / 2) (Z.odd m) (r || s).
Proof.
  intros Hm. rewrite <- Z.div2_div.
  destruct m as [|[p|p|]|p]; try reflexivity. lia.
Qed.

Lemma shr_iter (m : Z) (k : nat) :
  0 <= m ->
  Nat.iter (S k) shr_1 (Build_shr_record m false false)
  = Build_shr_record (m / 2 ^ (Z.of_nat k + 1)) (Z.odd (m / 2 ^ Z.of_nat k))
      (negb (m mod 2 ^ Z.of_nat k =? 0)).
Proof.
  intros Hm. induction k as [|k IH].
  - rewrite Nat.iter_succ. cbn [Nat.iter nat_rect].
    rewrite shr_1_spec by assumption. cbn.
    rewrite Z.div_1_r, Z.mod_1_r. reflexivity.
  - rewrite Nat.iter_succ, IH.
    assert (Hk : 0 <= Z.of_nat k) by lia.
    pose proof (pow2_pos _ Hk) as Hp.
    rewrite shr_1_spec by (apply Z.div_pos; [lia|apply pow2_pos; lia]).
    replace (Z.of_nat (S k)) with (Z.of_nat k + 1) by lia.
    f_equal.
    + rewrite Z.div_div by lia.
      rewrite (Z.pow_add_r 2 (Z.of_nat k + 1) 1) by lia. reflexivity.
    + replace (Z.of_nat k + 1) with (Z.succ (Z.of_nat k)) by lia.
      rewrite Z.pow_succ_r by lia.
      rewrite (Z.mul_comm 2), Z.rem_mul_r by lia.
      set (b := (m / 2 ^ Z.of_nat k) mod 2).
      assert (Hb : Z.odd (m / 2 ^ Z.of_nat k) = (b =? 1)).
      { unfold b. rewrite Zmod_odd.
        destruct (Z.odd (m / 2 ^ Z.of_nat k)); reflexivity. }
      rewrite Hb.
      pose proof (Z.mod_pos_bound m (2 ^ Z.of_nat k) Hp) as Hr.
      pose proof (Z.mod_pos_bound (m / 2 ^ Z.of_nat k) 2 ltac:(lia)) as Hb2.
      fold b in Hb2.
      destruct (Z.eqb_spec b 1); destruct (Z.eqb_spec (m mod 2 ^ Z.of_nat k) 0);
        destruct (Z.eqb_spec (m mod 2 ^ Z.of_nat k + 2 ^ Z.of_nat k * b) 0);
        cbn; try reflexivity; nia.
Qed.

Lemma shr_iter_rne (m : Z) (k : nat) :
  0 <= m ->
  let mrs := Nat.iter (S k) shr_1 (Build_shr_record m false false) in
  round_nearest_even (shr_m mrs) (loc_of_shr_record mrs) = rne m (Z.of_nat k + 1).
Proof.
  intros Hm mrs. unfold mrs. rewrite shr_iter by assumption.
  assert (Hk : 0 <= Z.of_nat k) by lia.
  pose proof (pow2_pos _ Hk) as Hp.
  unfold rne. cbn [shr_m].
  replace (Z.of_nat k + 1) with (Z.succ (Z.of_nat k)) by lia.
  rewrite Z.pow_succ_r by lia.
  rewrite (Z.mul_comm 2 (2 ^ Z.of_nat k)), Z.rem_mul_r by lia.
  set (b := (m / 2 ^ Z.of_nat k) mod 2).
  assert (Hb : Z.odd (m / 2 ^ Z.of_nat k) = (b =? 1)).
  { unfold b. rewrite Zmod_odd.
    destruct (Z.odd (m / 2 ^ Z.of_nat k)); reflexivity. }
  rewrite Hb.
  pose proof (Z.mod_pos_bound m (2 ^ Z.of_nat k) Hp) as Hr.
  pose proof (Z.mod_pos_bound (m / 2 ^ Z.of_nat k) 2 ltac:(lia)) as Hb2.
  fold b in Hb2.
  set (r := m mod 2 ^ Z.of_nat k) in *.
  set (P := 2 ^ Z.of_nat k) in *.
  destruct (Z.eqb_spec b 1) as [E1|E1]; destruct (Z.eqb_spec r 0) as [E0|E0];
    cbn [negb loc_of_shr_record round_nearest_even];
    destruct (Z.compare_spec (2 * (r + P * b)) (P * 2));
    try reflexivity; nia.
Qed.

(** *** The number of digits *)

Lemma digits2_pos_size (p : positive) : digits2_pos p = Pos.size p.
Proof. induction p as [p IH|p IH|]; cbn; congruence. Qed.

Lemma digits2_bounds (p : positive) :
  2 ^ (Zpos (digits2_pos p) - 1) <= Zpos p < 2 ^ Zpos (digits2_pos p).
Proof.
  rewrite digits2_pos_size.
  pose proof (Pos.size_gt p) as Hgt. pose proof (Pos.size_le p) as Hle.
  apply Pos2Z.pos_lt_pos in Hgt. apply Pos2Z.pos_le_pos in Hle.
  rewrite Pos2Z.inj_pow in Hgt, Hle.
  change (Z.pos p~0) with (2 * Z.pos p) in Hle.
  split; [|exact Hgt].
  replace (Z.pos (Pos.size p)) with (Z.succ (Z.pos (Pos.size p) - 1)) in Hle by lia.
  rewrite Z.pow_succ_r in Hle by lia. lia.
Qed.

Lemma digits_unique (m d : Z) : 2 ^ (d - 1) <= m < 2 ^ d -> 0 < d -> Zdigits2 m = d.
Proof.
  intros [Hlo Hhi] Hd.
  assert (Hm : 0 < m) by (pose proof (pow2_pos (d - 1) ltac:(lia)); lia).
  destruct m as [|p|p]; try lia. cbn [Zdigits2].
  pose proof (digits2_bounds p) as [Hlo' Hhi'].
  set (d' := Z.pos (digits2_pos p)) in *.
  destruct (Z.lt_trichotomy d' d) as [H|[H|H]]; [exfalso|exact H|exfalso].
  - pose proof (Z.pow_le_mono_r 2 d' (d - 1) ltac:(lia) ltac:(lia)). lia.
  - pose proof (Z.pow_le_mono_r 2 d (d' - 1) ltac:(lia) ltac:(lia)). lia.
Qed.

Lemma digits_pos (m : Z) : 0 < m -> 0 < Zdigits2 m.
Proof. destruct m; cbn; lia. Qed.

Lemma digits_bounds (m : Z) :
  0 < m -> 2 ^ (Zdigits2 m - 1) <= m < 2 ^ Zdigits2 m.
Proof. destruct m as [|p|p]; try lia. intros _. apply digits2_bounds. Qed.

Lemma digits_shift (m j : Z) :
  0 < m -> 0 <= j -> Zdigits2 (m * 2 ^ j) = Zdigits2 m + j.
Proof.
  intros Hm Hj. pose proof (digits_bounds m Hm) as [Hlo Hhi].
  pose proof (digits_pos m Hm) as Hd. pose proof (pow2_pos j Hj) as Hp.
  apply digits_unique; [|lia].
  replace (Zdigits2 m + j - 1) with (Zdigits2 m - 1 + j) by lia.
  rewrite !Z.pow_add_r by lia. nia.
Qed.

Lemma digits_mono (a b : Z) : 0 < a -> a <= b -> Zdigits2 a <= Zdigits2 b.
Proof.
  intros Ha Hab. pose proof (digits_bounds a Ha) as [Hlo _].
  pose proof (digits_bounds b ltac:(lia)) as [_ Hhi].
  pose proof (digits_pos a Ha).
  destruct (Z_le_gt_dec (Zdigits2 a) (Zdigits2 b)) as [H1|H1]; [exact H1|exfalso].
  pose proof (Z.pow_le_mono_r 2 (Zdigits2 b) (Zdigits2 a - 1) ltac:(lia) ltac:(lia)).
  lia.
Qed.

(** *** Rounding, as a function of the value *)

Lemma fexp64 (x : Z) : fexp prec emax x = Z.max (x - 53) (-1074).
Proof. reflexivity. Qed.

Lemma shr_fexp_stay (m e : Z) :
  Z.max (Zdigits2 m + e - 53) (-1074) = e ->
  shr_fexp prec emax m e loc_Exact = (Build_shr_record m false false, e).
Proof.
  intros H. unfold shr_fexp. rewrite fexp64, H, Z.sub_diag. reflexivity.
Qed.

Lemma shr_fexp_move (m e : Z) (k : nat) :
  Z.max (Zdigits2 m + e - 53) (-1074) = e + Z.of_nat (S k) ->
  shr_fexp prec emax m e loc_Exact
  = (Nat.iter (S k) shr_1 (Build_shr_record m false false), e + Z.of_nat (S k)).
Proof.
  intros H. unfold shr_fexp. rewrite fexp64, H.
  replace (e + Z.of_nat (S k) - e) with (Z.of_nat (S k)) by lia.
  change (Z.of_nat (S k)) with (Zpos (Pos.of_succ_nat k)).
  unfold shr. cbn [shr_record_of_loc].
  rewrite iter_pos_nat, SuccNat2Pos.id_succ. reflexivity.
Qed.

Lemma aux_exact (s : bool) (mz E : Z) :
  0 < mz -> Z.max (Zdigits2 mz + E - 53) (-1074) = E ->
  binary_round_aux prec emax s mz E loc_Exact = pack_float s (E, mz).
Proof.
  intros Hm H. unfold binary_round_aux. rewrite (shr_fexp_stay mz E H).
  cbn [shr_m loc_of_shr_record round_nearest_even].
  rewrite (shr_fexp_stay mz E H). cbn [shr_m]. reflexivity.
Qed.

Lemma aux_round (s : bool) (m e : Z) (k : nat) :
  0 < m -> Zdigits2 m = 53 + Z.of_nat (S k) -> -1074 <= e ->
  binary_round_aux prec emax s m e loc_Exact
  = pack_float s (if rne m (Z.of_nat (S k)) =? 2 ^ 53
            then (e + Z.of_nat (S k) + 1, 2 ^ 52)
            else (e + Z.of_nat (S k), rne m (Z.of_nat (S k)))).
Proof.
  intros Hm Hd He. unfold binary_round_aux.
  rewrite (shr_fexp_move m e k) by lia.
  pose proof (shr_iter_rne m k ltac:(lia)) as Hr. cbv zeta in Hr. rewrite Hr.
  replace (Z.of_nat k + 1) with (Z.of_nat (S k)) by lia.
  set (K := Z.of_nat (S k)) in *.
  assert (HK : 0 < K) by (unfold K; lia).
  pose proof (digits_bounds m Hm) as [Hlo Hhi]. rewrite Hd in Hlo, Hhi.
  replace (53 + K - 1) with (52 + K) in Hlo by lia.
  rewrite Z.pow_add_r in Hlo, Hhi by lia.
  pose proof (pow2_pos K ltac:(lia)) as Hp.
  assert (Hq : 2 ^ 52 <= m / 2 ^ K < 2 ^ 53).
  { split.
    - apply Z.div_le_lower_bound; lia.
    - apply Z.div_lt_upper_bound; lia. }
  pose proof (rne_bounds m K ltac:(lia)) as Hb.
  set (q := rne m K) in *.
  destruct (Z.eqb_spec q (2 ^ 53)) as [E|N].
  - rewrite E.
    assert (H54 : Zdigits2 (2 ^ 53) = 54) by reflexivity.
    rewrite (shr_fexp_move (2 ^ 53) (e + K) 0) by (rewrite H54; lia).
    rewrite shr_iter by lia. cbn [shr_m]. reflexivity.
  - assert (Hq53 : Zdigits2 q = 53) by (apply digits_unique; cbn in *; lia).
    rewrite (shr_fexp_stay q (e + K)) by lia. cbn [shr_m]. reflexivity.
Qed.

Lemma shl_align_value (m : positive) (e E : Z) :
  E <= e ->
  snd (shl_align m e E) = E
  /\ Zpos (fst (shl_align m e E)) = Zpos m * 2 ^ (e - E).
Proof.
  intros H. unfold shl_align.
  destruct (E - e) as [|p|p] eqn:D; try lia.
  - assert (e = E) by lia. subst. cbn [fst snd]. rewrite Z.sub_diag. lia.
  - cbn [fst snd]. split; [reflexivity|].
    replace (e - E) with (Zpos p) by lia.
    rewrite Pos.iter_swap_gen with (f := Zpos) (h := Z.mul 2) by reflexivity.
    rewrite <- Z.shiftl_mul_pow2 by lia. reflexivity.
Qed.

Lemma binary_round_value (s : bool) (m : positive) (e : Z) :
  -1074 <= e ->
  binary_round prec emax s m e = pack_float s (rounded (Zpos m * 2 ^ (e + 1074))).
Proof.
  intros He. unfold binary_round. rewrite fexp64.
  pose proof (digits2_bounds m) as Hdb.
  set (d := Zpos (digits2_pos m)) in *.
  assert (Hd : 0 < d) by (unfold d; lia).
  assert (HdV : Zdigits2 (Zpos m * 2 ^ (e + 1074)) = d + (e + 1074))
    by (rewrite digits_shift by lia; reflexivity).
  unfold rounded. rewrite HdV.
  destruct (Z_le_gt_dec d 53) as [Hs|Hl].
  - (* the value fits: no digit is lost *)
    set (E := Z.max (d + e - 53) (-1074)).
    assert (HE : E <= e) by lia.
    destruct (shl_align_value m e E HE) as [H2 H1].
    destruct (shl_align m e E) as [mz ez]. cbn [fst snd] in H1, H2. subst ez.
    assert (Hdz : Zdigits2 (Zpos mz) = d + (e - E)).
    { rewrite H1, digits_shift by lia. reflexivity. }
    rewrite aux_exact by lia.
    replace (Z.max (d + (e + 1074) - 53) 0) with (E + 1074) by lia.
    replace (Zpos m * 2 ^ (e + 1074)) with (Zpos mz * 2 ^ (E + 1074)).
    2:{ rewrite H1, <- Z.mul_assoc, <- Z.pow_add_r by lia. f_equal. f_equal. lia. }
    rewrite rne_exact by lia.
    pose proof (digits_bounds (Zpos mz) ltac:(lia)) as [_ Hhi].
    rewrite Hdz in Hhi.
    pose proof (Z.pow_le_mono_r 2 (d + (e - E)) 53 ltac:(lia) ltac:(lia)).
    destruct (Z.eqb_spec (Zpos mz) (2 ^ 53)); [lia|].
    f_equal. f_equal. lia.
  - (* digits are lost *)
    assert (HE : e < Z.max (d + e - 53) (-1074)) by lia.
    unfold shl_align.
    destruct (Z.max (d + e - 53) (-1074) - e) as [|p|p] eqn:D; try lia.
    destruct (Z_of_nat_complete (d - 53 - 1) ltac:(lia)) as [k Hk].
    rewrite (aux_round s (Zpos m) e k) by (cbn [Zdigits2]; fold d; lia).
    replace (Z.max (d + (e + 1074) - 53) 0)
      with (Z.of_nat (S k) + (e + 1074)) by lia.
    rewrite rne_scale by lia.
    destruct (rne (Z.pos m) (Z.of_nat (S k)) =? 2 ^ 53);
      f_equal; f_equal; lia.
Qed.

(** *** The order of the rounded values *)

Lemma key_le_intro (a1 a2 a3 b1 b2 b3 : Z) :
  a1 < b1 \/ (a1 = b1 /\ (a2 < b2 \/ (a2 = b2 /\ a3 <= b3))) ->
  key_lt (a1, a2, a3) (b1, b2, b3) \/ (a1, a2, a3) = (b1, b2, b3).
Proof.
  intros H. destruct (Z.eq_dec a3 b3) as [E|N].
  - destruct (Z.eq_dec a2 b2) as [E2|N2]; [destruct (Z.eq_dec a1 b1) as [E1|N1]|].
    + right. congruence.
    + left. cbn. lia.
    + left. cbn. lia.
  - left. cbn. lia.
Qed.

Lemma rounded_bounds (V : Z) :
  0 < V ->
  let K := Z.max (Zdigits2 V - 53) 0 in
  V / 2 ^ K < 2 ^ 53 /\ (0 < K -> 2 ^ 52 <= V / 2 ^ K) /\ (K = 0 -> rne V K = V).
Proof.
  intros HV K. pose proof (digits_bounds V HV) as [Hlo Hhi].
  pose proof (digits_pos V HV) as Hd.
  assert (HK : 0 <= K) by (unfold K; lia).
  pose proof (pow2_pos K HK) as Hp.
  split; [|split].
  - apply Z.div_lt_upper_bound; [lia|].
    rewrite <- Z.pow_add_r by lia.
    pose proof (Z.pow_le_mono_r 2 (Zdigits2 V) (K + 53) ltac:(lia) ltac:(lia)). lia.
  - intros H0. apply Z.div_le_lower_bound; [lia|].
    rewrite <- Z.pow_add_r by lia.
    replace (K + 52) with (Zdigits2 V - 1) by lia. exact Hlo.
  - intros ->. rewrite <- (Z.mul_1_r V) at 1. change 1 with (2 ^ 0) at 1.
    apply rne_exact. lia.
Qed.

Lemma rounded_spec (V : Z) :
  0 < V ->
  -1074 <= fst (rounded V) /\ 0 < snd (rounded V) < 2 ^ 53
  /\ (-1074 < fst (rounded V) -> 2 ^ 52 <= snd (rounded V)).
Proof.
  intros HV. destruct (rounded_bounds V HV) as (Hhi & Hlo & H0).
  unfold rounded. set (K := Z.max (Zdigits2 V - 53) 0) in *.
  assert (HK : 0 <= K) by (unfold K; lia).
  pose proof (rne_bounds V K HK) as Hb.
  destruct (Z.eqb_spec (rne V K) (2 ^ 53)) as [E|N]; cbn [fst snd].
  - split; [lia|]. split; [split; reflexivity|]. intros _. discriminate.
  - destruct (Z.eq_dec K 0) as [E0|N0].
    + rewrite H0 by assumption. lia.
    + specialize (Hlo ltac:(lia)). lia.
Qed.

Lemma rounded_mono (V1 V2 : Z) :
  0 < V1 -> V1 <= V2 ->
  fst (rounded V1) < fst (rounded V2)
  \/ (fst (rounded V1) = fst (rounded V2) /\ snd (rounded V1) <= snd (rounded V2)).
Proof.
  intros H1 H12. assert (H2 : 0 < V2) by lia.
  pose proof (digits_mono V1 V2 H1 H12) as Hd.
  destruct (rounded_bounds V1 H1) as (Hhi1 & Hlo1 & _).
  destruct (rounded_bounds V2 H2) as (Hhi2 & Hlo2 & _).
  unfold rounded.
  set (K1 := Z.max (Zdigits2 V1 - 53) 0) in *.
  set (K2 := Z.max (Zdigits2 V2 - 53) 0) in *.
  assert (HK1 : 0 <= K1) by (unfold K1; lia).
  assert (HK2 : 0 <= K2) by (unfold K2; lia).
  assert (HK : K1 <= K2) by (unfold K1, K2; lia).
  pose proof (rne_bounds V1 K1 HK1) as Hb1.
  pose proof (rne_bounds V2 K2 HK2) as Hb2.
  destruct (Z.eq_dec K1 K2) as [E|N].
  - pose proof (rne_mono V1 V2 K1 HK1 H12) as Hm. rewrite E in *.
    destruct (Z.eqb_spec (rne V1 K2) (2 ^ 53));
      destruct (Z.eqb_spec (rne V2 K2) (2 ^ 53)); cbn [fst snd]; lia.
  - specialize (Hlo2 ltac:(lia)).
    destruct (Z.eqb_spec (rne V1 K1) (2 ^ 53));
      destruct (Z.eqb_spec (rne V2 K2) (2 ^ 53)); cbn [fst snd]; lia.
Qed.

Lemma rank_pack (s : bool) (x : Z * Z) :
  0 < snd x ->
  rank (pack_float s x)
  = Some (if fst x <=? 971
          then if s then (-1, - fst x, - snd x) else (1, fst x, snd x)
          else if s then (-2, 0, 0) else (2, 0, 0)).
Proof.
  destruct x as [E q]. cbn [fst snd]. intros Hq. unfold pack_float. cbn [fst snd].
  destruct q as [|p|p]; try lia.
  destruct (E <=? 971), s; reflexivity.
Qed.

Lemma round_signed_mono (W1 W2 : Z) :
  W1 <= W2 ->
  exists a b, rank (round_signed W1) = Some a /\ rank (round_signed W2) = Some b
              /\ (key_lt a b \/ a = b).
Proof.
  intros H.
  assert (Hpos : forall w, 0 < snd (rounded (Zpos w)))
    by (intros w; apply (rounded_spec (Zpos w)); lia).
  destruct W1 as [|w1|w1], W2 as [|w2|w2]; try lia; cbn [round_signed];
    rewrite ?rank_pack by apply Hpos; cbn [rank];
    eexists _, _; (split; [reflexivity|]); (split; [reflexivity|]).
  - right. reflexivity.
  - destruct (fst (rounded (Zpos w2)) <=? 971); left; cbn; lia.
  - pose proof (rounded_mono (Zpos w1) (Zpos w2) ltac:(lia) ltac:(lia)) as Hm.
    destruct (Z.leb_spec (fst (rounded (Zpos w1))) 971);
      destruct (Z.leb_spec (fst (rounded (Zpos w2))) 971);
      apply key_le_intro; lia.
  - destruct (fst (rounded (Zpos w1)) <=? 971); left; cbn; lia.
  - destruct (fst (rounded (Zpos w1)) <=? 971), (fst (rounded (Zpos w2)) <=? 971);
      left; cbn; lia.
  - pose proof (rounded_mono (Zpos w2) (Zpos w1) ltac:(lia) ltac:(lia)) as Hm.
    destruct (Z.leb_spec (fst (rounded (Zpos w1))) 971);
      destruct (Z.leb_spec (fst (rounded (Zpos w2))) 971);
      apply key_le_intro; lia.
Qed.

(** *** Subtraction from one *)

Lemma binary_normalize_value (M e : Z) :
  -1074 <= e ->
  binary_normalize prec emax M e false = round_signed (M * 2 ^ (e + 1074)).
Proof.
  intros He. pose proof (pow2_pos (e + 1074) ltac:(lia)) as Hp.
  destruct M as [|m|m]; cbn [binary_normalize].
  - reflexivity.
  - rewrite binary_round_value by assumption.
    destruct (Zpos m * 2 ^ (e + 1074)) as [|w|w] eqn:E; try lia. reflexivity.
  - rewrite binary_round_value by assumption.
    assert (E : Zneg m * 2 ^ (e + 1074) = - (Zpos m * 2 ^ (e + 1074))) by lia.
    rewrite E.
    destruct (Zpos m * 2 ^ (e + 1074)) as [|w|w] eqn:E'; try lia. reflexivity.
Qed.

Lemma valid_canonical_float (x : spec_float) :
  valid_binary x = true ->
  match x with
  | S754_zero _ | S754_finite _ _ _ => canonical_float x
  | _ => True
  end.
Proof.
  destruct x as [s|s| |s m e]; cbn [valid_binary canonical_float];
    try exact (fun _ => I).
  unfold SpecFloat.bounded, SpecFloat.canonical_mantissa. rewrite fexp64.
  intros H. apply andb_prop in H. destruct H as [H _].
  apply Z.eqb_eq in H. exact H.
Qed.

Lemma SFsub_one (y : spec_float) :
  canonical_float y -> SF64sub one_spec y = round_signed (2 ^ 1074 - scaled y).
Proof.
  destruct y as [s|s| |s m e]; cbn [canonical_float]; try contradiction; intros Hc.
  - vm_compute. reflexivity.
  - assert (He : -1074 <= e) by lia.
    unfold SF64sub, one_spec. cbn [SFsub].
    set (ez := Z.min (-52) e).
    assert (Hez : -1074 <= ez <= -52 /\ ez <= e) by (unfold ez; lia).
    clearbody ez.
    rewrite binary_normalize_value by lia.
    f_equal.
    destruct (shl_align_value 4503599627370496 (-52) ez ltac:(lia)) as [_ H1].
    destruct (shl_align_value m e ez ltac:(lia)) as [_ H2].
    rewrite Z.mul_sub_distr_r. cbn [cond_Zopp scaled]. rewrite H1.
    f_equal.
    + change (Z.pos 4503599627370496) with (2 ^ 52).
      rewrite <- !Z.pow_add_r by lia.
      replace (52 + (-52 - ez) + (ez + 1074)) with 1074 by lia. reflexivity.
    + assert (E : 2 ^ (e - ez) * 2 ^ (ez + 1074) = 2 ^ (e + 1074)).
      { rewrite <- Z.pow_add_r by lia. f_equal. lia. }
      destruct s; cbn [cond_Zopp]; rewrite H2;
        rewrite ?Z.mul_opp_l, <- Z.mul_assoc, E; reflexivity.
Qed.

Lemma canonical_float_lt (m1 m2 : positive) (e1 e2 : Z) :
  Z.max (Zpos (digits2_pos m1) + e1 - 53) (-1074) = e1 ->
  Z.max (Zpos (digits2_pos m2) + e2 - 53) (-1074) = e2 ->
  e1 < e2 ->
  Zpos m1 * 2 ^ (e1 + 1074) < Zpos m2 * 2 ^ (e2 + 1074).
Proof.
  intros H1 H2 Hlt.
  pose proof (digits2_bounds m1) as [_ Hhi].
  pose proof (digits2_bounds m2) as [Hlo _].
  set (d1 := Zpos (digits2_pos m1)) in *. set (d2 := Zpos (digits2_pos m2)) in *.
  assert (Hd1 : d1 <= 53) by lia. assert (Hd2 : d2 = 53) by lia.
  rewrite Hd2 in Hlo. change (53 - 1) with 52 in Hlo.
  pose proof (Z.pow_le_mono_r 2 d1 53 ltac:(lia) Hd1) as Hp1.
  pose proof (pow2_pos (e1 + 1074) ltac:(lia)) as Hq1.
  pose proof (pow2_pos (e2 + 1074) ltac:(lia)) as Hq2.
  assert (Hp : 2 ^ 53 * 2 ^ (e1 + 1074) <= 2 ^ 52 * 2 ^ (e2 + 1074)).
  { rewrite <- !Z.pow_add_r by lia. apply Z.pow_le_mono_r; lia. }
  set (A := 2 ^ (e1 + 1074)) in *. set (B := 2 ^ (e2 + 1074)) in *.
  set (P53 := 2 ^ 53) in *. set (P52 := 2 ^ 52) in *.
  assert (S1 : Zpos m1 * A < P53 * A) by (apply Z.mul_lt_mono_pos_r; lia).
  assert (S2 : P52 * B <= Zpos m2 * B) by (apply Z.mul_le_mono_nonneg_r; lia).
  lia.
Qed.

Lemma scaled_mono (x y : spec_float) (a b : Z * Z * Z) :
  canonical_float x -> canonical_float y ->
  rank x = Some a -> rank y = Some b -> key_lt a b \/ a = b ->
  scaled x <= scaled y.
Proof.
  intros Hx Hy Ha Hb Hab.
  destruct x as [sx|sx| |sx mx ex], y as [sy|sy| |sy my ey];
    cbn [canonical_float] in Hx, Hy; try contradiction; cbn [scaled].
  - lia.
  - pose proof (pow2_pos (ey + 1074) ltac:(lia)).
    destruct sy; cbn [cond_Zopp rank] in *; [|nia].
    injection Ha as <-. injection Hb as <-.
    destruct Hab as [Hab|Hab]; [cbn in Hab; lia|discriminate].
  - pose proof (pow2_pos (ex + 1074) ltac:(lia)).
    destruct sx; cbn [cond_Zopp rank] in *; [nia|].
    injection Ha as <-. injection Hb as <-.
    destruct Hab as [Hab|Hab]; [cbn in Hab; lia|discriminate].
  - pose proof (pow2_pos (ex + 1074) ltac:(lia)).
    pose proof (pow2_pos (ey + 1074) ltac:(lia)).
    destruct sx, sy; cbn [cond_Zopp rank] in *;
      injection Ha as <-; injection Hb as <-.
    + destruct Hab as [Hab|Hab].
      * cbn in Hab.
        destruct (Z.lt_trichotomy ey ex) as [L|[E|G]]; [|subst; nia|lia].
        pose proof (canonical_float_lt my mx ey ex Hy Hx L). lia.
      * assert (E1 : - ex = - ey) by congruence.
        assert (E2 : mx = my) by congruence.
        assert (E3 : ex = ey) by lia. subst. lia.
    + nia.
    + destruct Hab as [Hab|Hab]; [cbn in Hab; lia|discriminate].
    + destruct Hab as [Hab|Hab].
      * cbn in Hab.
        destruct (Z.lt_trichotomy ex ey) as [L|[E|G]]; [|subst; nia|lia].
        pose proof (canonical_float_lt mx my ex ey Hx Hy L). lia.
      * assert (E1 : ex = ey) by congruence.
        assert (E2 : mx = my) by congruence. subst. lia.
Qed.

Lemma SFleb_rank (x y : spec_float) :
  SFleb x y = true
  <-> exists a b, rank x = Some a /\ rank y = Some b /\ (key_lt a b \/ a = b).
Proof.
  unfold SFleb. rewrite SFcompare_rank.
  destruct (rank x) as [a|], (rank y) as [b|];
    try (split; [discriminate|intros (a' & b' & H1 & H2 & _); discriminate]).
  pose proof (lex_spec a b) as H. split.
  - destruct (lex a b); try discriminate; intros _; exists a, b; auto.
  - intros (a' & b' & [= <-] & [= <-] & Hle).
    destruct (lex a b); [reflexivity..|].
    exfalso. destruct Hle as [Hlt| ->].
    + exact (key_lt_irrefl a (key_lt_trans _ _ _ Hlt H)).
    + exact (key_lt_irrefl b H).
Qed.

Lemma rank_top (x : spec_float) (a : Z * Z * Z) :
  rank x = Some a -> key_lt a (2, 0, 0) \/ a = (2, 0, 0).
Proof.
  destruct x as [s|[|]| |[|] m e]; cbn; intros [= <-]; auto; left; cbn; lia.
Qed.

Lemma rank_bottom (x : spec_float) (a : Z * Z * Z) :
  rank x = Some a -> key_lt (-2, 0, 0) a \/ (-2, 0, 0) = a.
Proof.
  destruct x as [s|[|]| |[|] m e]; cbn; intros [= <-]; auto; left; cbn; lia.
Qed.

Lemma rank_round_signed (W : Z) : exists a, rank (round_signed W) = Some a.
Proof.
  destruct (round_signed_mono W W (Z.le_refl W)) as (a & _ & H & _). eauto.
Qed.

(** Subtraction from one turns the order round. *)
Lemma SFsub_one_antitone (x y : spec_float) :
  valid_binary x = true -> valid_binary y = true ->
  SFleb x y = true -> SFleb (SF64sub one_spec y) (SF64sub one_spec x) = true.
Proof.
  intros Vx Vy H. apply SFleb_rank in H. destruct H as (a & b & Ha & Hb & Hab).
  apply SFleb_rank.
  pose proof (valid_canonical_float x Vx) as Cx.
  pose proof (valid_canonical_float y Vy) as Cy.
  assert (Hfin : canonical_float x -> canonical_float y ->
            exists a' b', rank (SF64sub one_spec y) = Some a'
                          /\ rank (SF64sub one_spec x) = Some b'
                          /\ (key_lt a' b' \/ a' = b')).
  { intros Hx Hy. rewrite (SFsub_one x Hx), (SFsub_one y Hy).
    apply round_signed_mono. pose proof (scaled_mono x y a b Hx Hy Ha Hb Hab). lia. }
  destruct x as [sx|sx| |sx mx ex]; try discriminate.
  - (* zero *)
    destruct y as [sy|sy| |sy my ey]; try discriminate; [auto| |auto].
    destruct sy.
    + cbn in Ha, Hb. injection Ha as <-. injection Hb as <-.
      destruct Hab as [Hab|Hab]; [cbn in Hab; lia|discriminate].
    + eexists _, _. split; [reflexivity|]. split; [reflexivity|]. left. cbn. lia.
  - (* infinite *)
    destruct sx.
    + (* minus infinity: the difference is plus infinity *)
      assert (Hy : exists a', rank (SF64sub one_spec y) = Some a').
      { destruct y as [sy|[|]| |sy my ey]; try discriminate.
        - rewrite (SFsub_one _ Cy). apply rank_round_signed.
        - eexists. reflexivity.
        - eexists. reflexivity.
        - rewrite (SFsub_one _ Cy). apply rank_round_signed. }
      destruct Hy as (a' & Ha').
      exists a', (2, 0, 0). split; [exact Ha'|]. split; [reflexivity|].
      eapply rank_top. exact Ha'.
    + (* plus infinity: so is [y] *)
      destruct y as [sy|[|]| |[|] my ey]; try discriminate;
        cbn in Ha, Hb; injection Ha as <-; injection Hb as <-;
        try (destruct Hab as [Hab|Hab]; [cbn in Hab; lia|discriminate]).
      eexists _, _. split; [reflexivity|]. split; [reflexivity|]. auto.
  - (* finite *)
    destruct y as [sy|[|]| |sy my ey]; try discriminate; [auto| | |auto].
    + (* [y] is minus infinity: impossible *)
      destruct sx; cbn in Ha, Hb; injection Ha as <-; injection Hb as <-;
        (destruct Hab as [Hab|Hab]; [cbn in Hab; lia|discriminate]).
    + (* [y] is plus infinity: the difference is minus infinity *)
      destruct (rank_round_signed (2 ^ 1074 - scaled (S754_finite sx mx ex)))
        as (b' & Hb').
      rewrite (SFsub_one _ Cx).
      exists (-2, 0, 0), b'. split; [reflexivity|]. split; [exact Hb'|].
      eapply rank_bottom. exact Hb'.
Qed.

Lemma float_sub_one_antitone (t t' : float) :
  (t <=? t')%float = true -> (1 - t' <=? 1 - t)%float = true.
Proof.
  rewrite !FloatAxioms.leb_spec, !FloatAxioms.sub_spec.
  change (Prim2SF 1) with one_spec.
  apply SFsub_one_antitone; apply Prim2SF_valid.
Qed.

End Rounding.

(** ** The scan of [numpy.argmax] *)

Lemma first_max_unique (l : list float) (b b' : nat) :
  first_max l b -> first_max l b' -> b = b'.
Proof.
  intros (v & Hv & Hmax & Hfirst) (v' & Hv' & Hmax' & Hfirst').
  destruct (Nat.lt_trichotomy b b') as [L|[E|L]]; [|assumption|]; exfalso.
  - exact (float_ltb_not_leb _ _ (Hfirst' _ _ L Hv) (Hmax _ _ Hv')).
  - exact (float_ltb_not_leb _ _ (Hfirst _ _ L Hv') (Hmax' _ _ Hv)).
Qed.

(** A list with a first maximum holds numbers only. *)
Lemma first_max_numbers (l : list float) (b : nat) :
  first_max l b -> Forall (fun x => is_nan x = false) l.
Proof.
  intros (v & Hv & Hmax & _). apply Forall_forall. intros x Hin.
  destruct (In_nth_error _ _ Hin) as (j & Hj).
  exact (proj1 (float_leb_number _ _ (Hmax _ _ Hj))).
Qed.

Lemma first_max_snoc_keep (pre : list float) (b : nat) (bv x : float) :
  first_max pre b -> nth_error pre b = Some bv -> (x <=? bv)%float = true ->
  first_max (pre ++ [x]) b.
Proof.
  intros (v & Hv & Hmax & Hfirst) Hb Hx.
  assert (v = bv) by congruence. subst v.
  assert (Hlt : (b < length pre)%nat) by (apply nth_error_Some; congruence).
  exists bv. split; [rewrite nth_error_app1; assumption|]. split.
  - intros j w Hj. destruct (Nat.lt_ge_cases j (length pre)) as [L|G].
    + rewrite nth_error_app1 in Hj by assumption. eauto.
    + rewrite nth_error_app2 in Hj by assumption.
      destruct (j - length pre)%nat as [|n]; simpl in Hj.
      * injection Hj as <-. assumption.
      * destruct n; discriminate.
  - intros j w Hjb Hj. rewrite nth_error_app1 in Hj by lia. eauto.
Qed.

Lemma first_max_snoc_move (pre : list float) (b : nat) (bv x : float) :
  first_max pre b -> nth_error pre b = Some bv -> (bv <? x)%float = true ->
  first_max (pre ++ [x]) (length pre).
Proof.
  intros (v & Hv & Hmax & Hfirst) Hb Hx.
  assert (v = bv) by congruence. subst v.
  exists x. split; [rewrite nth_error_app2, Nat.sub_diag by lia; reflexivity|]. split.
  - intros j w Hj. destruct (Nat.lt_ge_cases j (length pre)) as [L|G].
    + rewrite nth_error_app1 in Hj by assumption. apply Hmax in Hj.
      apply float_ltb_leb. eapply float_leb_ltb_trans; eassumption.
    + rewrite nth_error_app2 in Hj by assumption.
      destruct (j - length pre)%nat as [|n]; simpl in Hj.
      * injection Hj as <-. apply float_leb_refl.
        exact (proj2 (float_ltb_number _ _ Hx)).
      * destruct n; discriminate.
  - intros j w Hjb Hj. rewrite nth_error_app1 in Hj by lia. apply Hmax in Hj.
    eapply float_leb_ltb_trans; eassumption.
Qed.

Lemma first_nan_app (pre l : list float) (b : nat) :
  Forall (fun x => is_nan x = false) pre -> first_nan l b ->
  first_nan (pre ++ l) (length pre + b).
Proof.
  intros Hpre (v & Hv & Hn & Hfirst). exists v.
  split; [rewrite nth_error_app2 by lia;
          replace (length pre + b - length pre)%nat with b by lia; assumption|].
  split; [assumption|].
  intros j w Hj Hw. destruct (Nat.lt_ge_cases j (length pre)) as [L|G].
  - rewrite nth_error_app1 in Hw by assumption.
    rewrite Forall_forall in Hpre. apply Hpre. eapply nth_error_In; eassumption.
  - rewrite nth_error_app2 in Hw by assumption.
    apply (Hfirst (j - length pre)%nat); [lia|assumption].
Qed.

(** The scan ends on the first maximum of a list of numbers, and on the
    first [nan] of a list that holds one. *)
Lemma argmax_from_spec (l pre : list float) (best : nat) (bv : float) :
  first_max pre best -> nth_error pre best = Some bv ->
  first_max (pre ++ l) (argmax_from best bv (length pre) l)
  \/ first_nan (pre ++ l) (argmax_from best bv (length pre) l).
Proof.
  revert pre best bv.
  induction l as [|x l IH]; intros pre best bv Hfm Hb; simpl.
  - left. rewrite app_nil_r. assumption.
  - replace (pre ++ x :: l) with ((pre ++ [x]) ++ l)
      by (rewrite <- app_assoc; reflexivity).
    replace (S (length pre)) with (length (pre ++ [x]))
      by (rewrite length_app; simpl; lia).
    destruct (x <=? bv)%float eqn:Hle.
    + apply IH.
      * eapply first_max_snoc_keep; eassumption.
      * rewrite nth_error_app1; [assumption|]. apply nth_error_Some. congruence.
    + destruct (is_nan x) eqn:Hx.
      * right. rewrite <- app_assoc. cbn [app].
        rewrite <- (Nat.add_0_r (length pre)).
        apply first_nan_app; [eapply first_max_numbers; eassumption|].
        exists x. split; [reflexivity|]. split; [assumption|]. intros j w Hj. lia.
      * apply IH.
        -- eapply first_max_snoc_move; [eassumption..|].
           apply float_leb_total; [assumption| |assumption].
           pose proof (first_max_numbers _ _ Hfm) as Hn.
           rewrite Forall_forall in Hn. apply Hn.
           eapply nth_error_In; eassumption.
        -- rewrite nth_error_app2, Nat.sub_diag by lia. reflexivity.
Qed.

Lemma first_max_singleton (x : float) : is_nan x = false -> first_max [x] 0.
Proof.
  intros Hx. exists x. split; [reflexivity|]. split.
  - intros [|[|j]] w Hj; simpl in Hj; try discriminate. injection Hj as <-.
    apply float_leb_refl. assumption.
  - intros j w Hj. lia.
Qed.

Lemma np_argmax_spec (l : list float) :
  l <> [] -> exists b, np_argmax l = Ok b /\ (first_max l b \/ first_nan l b).
Proof.
  destruct l as [|x l]; [congruence|]. intros _.
  eexists. split; [reflexivity|].
  destruct (is_nan x) eqn:Hx.
  - right. exists x. split; [reflexivity|]. split; [assumption|]. intros j w Hj. lia.
  - apply (argmax_from_spec l [x] 0%nat x).
    + apply first_max_singleton. assumption.
    + reflexivity.
Qed.

(** A first [nan] is no first maximum. *)
Lemma first_nan_not_max (l : list float) (b b' : nat) :
  first_nan l b -> first_max l b' -> False.
Proof.
  intros (v & Hv & Hn & _) Hfm.
  pose proof (first_max_numbers _ _ Hfm) as Hall.
  rewrite Forall_forall in Hall.
  rewrite (Hall v (nth_error_In _ _ Hv)) in Hn. discriminate.
Qed.

Lemma forallb_numbers (l : list float) :
  forallb (fun x => negb (is_nan x)) l = true
  <-> Forall (fun x => is_nan x = false) l.
Proof.
  rewrite forallb_forall, Forall_forall.
  split; intros H x Hin; specialize (H x Hin); destruct (is_nan x);
    first [reflexivity|discriminate].
Qed.

(** ** The Matcher *)

Section MatcherFacts.
Context {SK : Sklearn}.

Lemma check_pairwise_arrays_shapes (known : list vec) (q : vec) :
  check_pairwise_arrays known q = true
  <-> shapes_agree known q /\ entries_finite known q.
Proof.
  unfold check_pairwise_arrays, shapes_agree, entries_finite.
  rewrite !andb_true_iff, Nat.ltb_lt, !forallb_forall, !Forall_forall.
  split.
  - intros [[[Hq Hk] Hfq] Hfk]. repeat split; try assumption; auto.
    intros k Hin. apply Nat.eqb_eq. auto.
  - intros [[Hq Hk] [Hfq Hfk]]. repeat split; try assumption; auto.
    intros k Hin. apply Nat.eqb_eq. auto.
Qed.

Lemma check_pairwise_arrays_true (known : list vec) (q : vec) :
  shapes_agree known q -> entries_finite known q ->
  check_pairwise_arrays known q = true.
Proof. intros Hs Hf. apply check_pairwise_arrays_shapes. split; assumption. Qed.

(** Known embeddings that the library refuses, for their shapes or for an
    entry that is [nan] or infinite, make [find_match] raise, as
    [cosine_similarity] does. *)
Lemma find_match_shape_error (known : list vec) (q : vec) (t : float) :
  known <> [] -> check_pairwise_arrays known q = false ->
  find_match known q t = Raise ValueError.
Proof.
  intros Hne Hsh. destruct known as [|k0 known']; [congruence|].
  unfold find_match, cosine_similarity. rewrite Hsh. reflexivity.
Qed.

Lemma pairwise_cosine_nonempty (known : list vec) (q : vec) :
  known <> [] -> pairwise_cosine known q <> [].
Proof.
  intros Hne H. apply (f_equal (@length float)) in H.
  rewrite pairwise_cosine_length in H. destruct known; [congruence|discriminate].
Qed.

(** [find_match] on arrays that the library accepts: the index is the one
    of [numpy.argmax], and it is returned when its similarity exceeds
    [1 - threshold]. *)
Lemma find_match_nonempty (known : list vec) (q : vec) (t : float) :
  known <> [] -> check_pairwise_arrays known q = true ->
  exists b s,
    np_argmax (pairwise_cosine known q) = Ok b
    /\ nth_error (pairwise_cosine known q) b = Some s
    /\ (first_max (pairwise_cosine known q) b
        \/ first_nan (pairwise_cosine known q) b)
    /\ find_match known q t
       = Ok (if (1 - t <? s)%float then Some b else None).
Proof.
  intros Hne Hc.
  destruct (np_argmax_spec (pairwise_cosine known q)
              (pairwise_cosine_nonempty known q Hne)) as (b & Hb & Hspec).
  assert (Hs : exists s, nth_error (pairwise_cosine known q) b = Some s).
  { destruct Hspec as [(v & Hv & _)|(v & Hv & _)]; eauto. }
  destruct Hs as (s & Hs).
  exists b, s. split; [assumption|]. split; [assumption|]. split; [assumption|].
  destruct known as [|k0 known']; [congruence|].
  unfold find_match, cosine_similarity. rewrite Hc. cbn [rbind].
  rewrite Hb. cbn [rbind]. unfold getitem. rewrite Hs. cbn [rbind].
  destruct (1 - t <? s)%float; reflexivity.
Qed.

(** What a returned index tells. *)
Lemma find_match_some_inv (known : list vec) (q : vec) (t : float) (i : nat) :
  find_match known q t = Ok (Some i) ->
  known <> [] /\ check_pairwise_arrays known q = true
  /\ exists s,
       first_max (pairwise_cosine known q) i
       /\ nth_error (pairwise_cosine known q) i = Some s
       /\ (1 - t <? s)%float = true.
Proof.
  intros Hm.
  assert (Hne : known <> []) by (intros ->; discriminate).
  destruct (check_pairwise_arrays known q) eqn:Hc.
  2:{ rewrite (find_match_shape_error known q t Hne Hc) in Hm. discriminate. }
  destruct (find_match_nonempty known q t Hne Hc) as (b & s & _ & Hs & Hspec & Hres).
  rewrite Hres in Hm.
  destruct (1 - t <? s)%float eqn:G; [|discriminate].
  injection Hm as <-.
  split; [assumption|]. split; [reflexivity|]. exists s.
  split; [|split; [assumption|exact G]].
  destruct Hspec as [Hfm|(v & Hv & Hn & _)]; [assumption|].
  assert (v = s) by congruence. subst v.
  rewrite (proj2 (float_ltb_number _ _ G)) in Hn. discriminate.
Qed.

Lemma find_match_none_inv (known : list vec) (q : vec) (t : float) :
  find_match known q t = Ok None ->
  known = []
  \/ (check_pairwise_arrays known q = true
      /\ forall i s, first_max (pairwise_cosine known q) i ->
                     nth_error (pairwise_cosine known q) i = Some s ->
                     (1 - t <? s)%float = false).
Proof.
  intros Hm. destruct known as [|k0 rest] eqn:E; [left; reflexivity|right].
  rewrite <- E in *.
  assert (Hne : known <> []) by (rewrite E; discriminate).
  destruct (check_pairwise_arrays known q) eqn:Hc.
  2:{ rewrite (find_match_shape_error known q t Hne Hc) in Hm. discriminate. }
  split; [reflexivity|]. intros i s Hfm Hs.
  destruct (find_match_nonempty known q t Hne Hc) as (b & sb & _ & Hsb & Hspec & Hres).
  rewrite Hres in Hm.
  destruct Hspec as [Hb|Hb]; [|exfalso; eapply first_nan_not_max; eassumption].
  assert (b = i) by (eapply first_max_unique; eassumption). subst b.
  assert (sb = s) by congruence. subst sb.
  destruct (1 - t <? s)%float; [discriminate|reflexivity].
Qed.

Lemma find_match_raise_inv (known : list vec) (q : vec) (t : float) (e : exn) :
  find_match known q t = Raise e ->
  known <> [] /\ check_pairwise_arrays known q = false /\ e = ValueError.
Proof.
  intros Hm.
  assert (Hne : known <> []) by (intros ->; discriminate).
  destruct (check_pairwise_arrays known q) eqn:Hc.
  - destruct (find_match_nonempty known q t Hne Hc) as (b & s & _ & _ & _ & Hres).
    rewrite Hres in Hm. discriminate.
  - rewrite (find_match_shape_error known q t Hne Hc) in Hm.
    injection Hm as <-. auto.
Qed.


End MatcherFacts.

(** ** The fetch loop *)

Section FetchLoop.
Context {FT : FloatText} {SK : Sklearn}.

Lemma fetch_step_record (d : json) (acc : knownset) (s : state) :
  is_record d = true ->
  match entry_of d with
  | Some e => fetch_step d acc s = (Ok (append_record acc (fst e) (snd e) d), s)
  | None =>
      exists w,
        fetch_step d acc s = (Ok acc, set_ui (ui s ++ [(warning, w)]) s)
  end.
Proof.
  destruct d as [| | | | |fields]; try discriminate. intros _.
  unfold entry_of, encoding_of, fetch_step, try_except, bind, lift,
    py_getitem, py_get.
  destruct (lookup fields "encoding") as [enc|]; cbn.
  2:{ destruct (lookup fields "name"); eexists; reflexivity. }
  destruct (np_fromstring_value enc) as [emb|x]; cbn.
  2:{ destruct (lookup fields "name"); eexists; reflexivity. }
  destruct (length emb =? EMB_SIZE)%nat; cbn.
  - destruct (lookup fields "name"); cbn; [reflexivity|eexists; reflexivity].
  - destruct (lookup fields "name"); cbn; eexists; reflexivity.
Qed.

Lemma fetch_loop_records (rows : list json) :
  Forall (fun d => is_record d = true) rows ->
  forall (acc : knownset) (s : state),
  exists ws,
    fetch_loop rows acc s
    = (Ok (known_app acc (known_of rows)), set_ui (ui s ++ ws) s)
    /\ Forall (fun m => fst m = warning) ws
    /\ length ws = length (dropped rows).
Proof.
  induction 1 as [|d rows Hd Hrows IH]; intros acc s.
  - exists []. split; [|split; [constructor|reflexivity]].
    cbn. unfold ret, known_app. cbn. rewrite !app_nil_r.
    destruct acc, s; reflexivity.
  - pose proof (fetch_step_record d acc s Hd) as Hstep.
    cbn [fetch_loop]. unfold bind at 1.
    unfold known_of, dropped, admitted in *. cbn [entries filter].
    destruct (entry_of d) as [[n e]|] eqn:He.
    + rewrite Hstep.
      destruct (IH (append_record acc n e d) s) as (ws & Hrun & Hw & Hlen).
      exists ws. split; [|split; assumption].
      cbn [fst snd] in *. rewrite Hrun. unfold known_app, append_record. cbn.
      rewrite <- !app_assoc. reflexivity.
    + destruct Hstep as (w & Hstep). rewrite Hstep.
      destruct (IH acc (set_ui (ui s ++ [(warning, w)]) s))
        as (ws & Hrun & Hw & Hlen).
      exists ((warning, w) :: ws). split; [|split].
      * rewrite Hrun. cbn. rewrite <- app_assoc. reflexivity.
      * constructor; [reflexivity|assumption].
      * cbn. rewrite Hlen. reflexivity.
Qed.


End FetchLoop.

(** ** The fetch *)

Lemma same_but_ui_refl (s : state) : same_but_ui s s.
Proof. repeat split. Qed.

Lemma same_but_ui_trans (a b c : state) :
  same_but_ui a b -> same_but_ui b c -> same_but_ui a c.
Proof. unfold same_but_ui. intuition congruence. Qed.

Lemma same_but_ui_set_ui (u : list message) (s : state) :
  same_but_ui s (set_ui u s).
Proof. repeat split. Qed.

Section Fetch.
Context {FT : FloatText} {SK : Sklearn}.

Lemma append_record_lockstep acc name emb d :
  lockstep acc -> lockstep (append_record acc name emb d).
Proof.
  unfold lockstep, append_record. cbn. rewrite !length_app. cbn. lia.
Qed.

(** The [except] branch of the loop: a warning, or the failure of
    [d.get]. *)
Ltac handled d :=
  destruct (py_get d "name" (JStr "Unknown")); cbn;
  (split; [repeat split|first [exact I|assumption]]).

Lemma fetch_step_any (d : json) (acc : knownset) (s : state) :
  lockstep acc ->
  same_but_ui s (snd (fetch_step d acc s))
  /\ match fst (fetch_step d acc s) with
     | Ok acc' => lockstep acc'
     | Raise _ => True
     end.
Proof.
  intros Hacc.
  unfold fetch_step, try_except, bind, lift.
  destruct (py_getitem d "encoding") as [enc|x]; cbn.
  2:{ handled d. }
  destruct (np_fromstring_value enc) as [emb|x]; cbn.
  2:{ handled d. }
  destruct (length emb =? EMB_SIZE)%nat; cbn.
  - destruct (py_getitem d "name"); cbn.
    + split; [repeat split|]. apply append_record_lockstep. assumption.
    + handled d.
  - destruct (py_getitem d "name"); cbn.
    + split; [repeat split|assumption].
    + handled d.
Qed.

Lemma fetch_loop_any (items : list json) :
  forall (acc : knownset) (s : state),
  lockstep acc ->
  same_but_ui s (snd (fetch_loop items acc s))
  /\ match fst (fetch_loop items acc s) with
     | Ok acc' => lockstep acc'
     | Raise _ => True
     end.
Proof.
  induction items as [|d items IH]; intros acc s Hacc.
  - cbn. split; [apply same_but_ui_refl|assumption].
  - cbn [fetch_loop]. unfold bind.
    pose proof (fetch_step_any d acc s Hacc) as [Hs Hr].
    destruct (fetch_step d acc s) as [[acc'|x] s1]; cbn in *.
    + destruct (IH acc' s1 Hr) as [Hs' Hr'].
      split; [eapply same_but_ui_trans; eassumption|assumption].
    + split; [assumption|exact I].
Qed.

Lemma empty_known_lockstep : lockstep empty_known.
Proof. split; reflexivity. Qed.

(** The outer [except] branch: the error goes on the page and the empty
    KnownSet is returned. *)
Ltac falls_back :=
  eexists _, _; split; [reflexivity|];
  split; [apply empty_known_lockstep|]; apply same_but_ui_set_ui.

(** The body of [fetch_registered] always returns, with lists in lockstep;
    it sends one GET and changes nothing else but the page. *)
Lemma fetch_registered_body_total (s : state) :
  exists ks s',
    fetch_registered_body s = (Ok ks, s')
    /\ lockstep ks
    /\ same_but_ui (send GET (sheet s) s) s'.
Proof.
  assert (Hloop : forall items, exists ks s',
    try_except (fetch_loop items empty_known)
      (fun e => st_error (FailedToFetch e);; ret empty_known) (send GET (sheet s) s)
    = (Ok ks, s') /\ lockstep ks /\ same_but_ui (send GET (sheet s) s) s').
  { intros items. unfold try_except.
    pose proof (fetch_loop_any items empty_known (send GET (sheet s) s)
                  empty_known_lockstep) as [Hs Hr].
    destruct (fetch_loop items empty_known (send GET (sheet s) s)) as [[ks|x] s1];
      cbn [fst snd] in *.
    - eexists _, _. split; [reflexivity|]. split; assumption.
    - eexists _, _. split; [reflexivity|]. split; [apply empty_known_lockstep|].
      eapply same_but_ui_trans; [exact Hs|apply same_but_ui_set_ui]. }
  unfold fetch_registered_body, try_except, bind at 1, requests_get.
  unfold try_except in Hloop.
  destruct (next_reply s) as [|cause|st b].
  - unfold bind, raise_for_status, resp_json, lift, ret, raise. cbn. apply Hloop.
  - falls_back.
  - unfold bind, raise_for_status, resp_json, lift, ret, raise. cbn.
    destruct ((400 <=? st)%Z && (st <? 600)%Z).
    { falls_back. }
    destruct b as [data|].
    2:{ falls_back. }
    destruct (py_iter data) as [items|x].
    2:{ falls_back. }
    cbn. apply Hloop.
Qed.

(** A store-level failure of the fetch: one error on the page, and the
    empty KnownSet. *)
Lemma fetch_registered_body_failure (s : state) (e : exn) :
  fetch_failure (next_reply s) = Some e ->
  fetch_registered_body s
  = (Ok empty_known,
     set_ui (ui s ++ [(error, FailedToFetch e)]) (send GET (sheet s) s)).
Proof.
  unfold fetch_failure, request_failure, fetch_registered_body, try_except,
    bind at 1, requests_get.
  destruct (next_reply s) as [|cause|st b].
  - discriminate.
  - intros [= <-]. reflexivity.
  - unfold bind, raise_for_status, resp_json, lift, ret, raise. cbn.
    destruct ((400 <=? st)%Z && (st <? 600)%Z).
    { intros [= <-]. reflexivity. }
    destruct b as [data|]; [|intros [= <-]; reflexivity].
    destruct (py_iter data) as [items|x]; [discriminate|].
    intros [= <-]. reflexivity.
Qed.

(** A fetch that gets records through: the KnownSet of section 3, and one
    warning for each dropped record. *)
Lemma fetch_registered_body_records (s : state) (rows : list json) :
  fetched_rows s = Some rows ->
  Forall (fun d => is_record d = true) rows ->
  exists ws,
    fetch_registered_body s
    = (Ok (known_of rows), set_ui (ui s ++ ws) (send GET (sheet s) s))
    /\ Forall (fun m => fst m = warning) ws
    /\ length ws = length (dropped rows).
Proof.
  intros Hrows Hrec.
  assert (Hloop : exists ws,
    try_except (fetch_loop rows empty_known)
      (fun e => st_error (FailedToFetch e);; ret empty_known) (send GET (sheet s) s)
    = (Ok (known_of rows), set_ui (ui s ++ ws) (send GET (sheet s) s))
    /\ Forall (fun m => fst m = warning) ws
    /\ length ws = length (dropped rows)).
  { destruct (fetch_loop_records rows Hrec empty_known (send GET (sheet s) s))
      as (ws & Hrun & Hw & Hlen).
    exists ws. split; [|split; assumption].
    unfold try_except. rewrite Hrun. reflexivity. }
  unfold fetched_rows in Hrows.
  unfold fetch_registered_body, try_except, bind at 1, requests_get.
  unfold try_except in Hloop.
  destruct (next_reply s) as [|cause|st b]; cbn.
  - injection Hrows as <-. unfold bind, raise_for_status, resp_json, lift. cbn.
    exact Hloop.
  - discriminate.
  - destruct b as [[| | | |items|]|]; try discriminate.
    unfold bind, raise_for_status, resp_json, lift. cbn.
    destruct ((400 <=? st)%Z && (st <? 600)%Z); [discriminate|].
    injection Hrows as <-. cbn. exact Hloop.
Qed.

End Fetch.

(** ** Indices and the cache *)

Section Indices.
Context {SK : Sklearn}.

Lemma find_match_bound (known : list vec) (q : vec) (t : float) (i : nat) :
  find_match known q t = Ok (Some i) -> (i < length known)%nat.
Proof.
  intros Hm.
  destruct (find_match_some_inv known q t i Hm) as (_ & _ & s & _ & Hs & _).
  rewrite <- (pairwise_cosine_length known q).
  apply nth_error_Some. congruence.
Qed.

Lemma find_match_no_index_error (known : list vec) (q : vec) (t : float) :
  find_match known q t <> Raise IndexError.
Proof.
  intros Hm. apply find_match_raise_inv in Hm.
  destruct Hm as (_ & _ & Hx). discriminate.
Qed.

End Indices.

Lemma getitem_lockstep (ks : knownset) (i : nat) :
  lockstep ks -> (i < length (embs ks))%nat ->
  exists n, nth_error (names ks) i = Some n /\ getitem (names ks) i = Ok n.
Proof.
  intros [Hn _] Hi. unfold getitem.
  destruct (nth_error (names ks) i) as [n|] eqn:E.
  - exists n. split; reflexivity.
  - apply nth_error_None in E. lia.
Qed.

Section Cache.
Context {FT : FloatText} {SK : Sklearn}.

Lemma fetch_registered_hit (s : state) ks msgs :
  cache s = Some (ks, msgs) ->
  fetch_registered s = (Ok ks, set_ui (ui s ++ msgs) s).
Proof. intros H. unfold fetch_registered. rewrite H. reflexivity. Qed.

Lemma fetch_registered_miss (s : state) ks s' :
  cache s = None ->
  fetch_registered_body (set_ui [] s) = (Ok ks, s') ->
  fetch_registered s
  = (Ok ks, set_cache (Some (ks, ui s')) (set_ui (ui s ++ ui s') s')).
Proof. intros H Hb. unfold fetch_registered. rewrite H, Hb. reflexivity. Qed.

(** Every call of [fetch_registered] returns; from a cache in lockstep it
    returns lists in lockstep and leaves such a cache. *)
Lemma fetch_registered_ok (s : state) :
  cache_ok s ->
  exists ks s',
    fetch_registered s = (Ok ks, s') /\ lockstep ks /\ cache_ok s'
    /\ session s' = session s.
Proof.
  unfold cache_ok. intros Hc.
  destruct (cache s) as [[ks msgs]|] eqn:E.
  - exists ks, (set_ui (ui s ++ msgs) s).
    split; [apply fetch_registered_hit; assumption|].
    split; [assumption|]. split; [|reflexivity]. cbn. rewrite E. assumption.
  - destruct (fetch_registered_body_total (set_ui [] s)) as (ks & s' & Hb & Hl & Hs).
    eexists _, _. split; [apply fetch_registered_miss; eassumption|].
    split; [assumption|]. split; [exact Hl|].
    destruct Hs as (_ & _ & _ & _ & Hsess). cbn in *. assumption.
Qed.

End Cache.

(** ** The Register button *)

Lemma lstrip_empty (s : string) : lstrip s = EmptyString <-> all_space s = true.
Proof.
  induction s as [|c s IH]; cbn; [tauto|].
  destruct (py_isspace c); cbn; [exact IH|]. split; discriminate.
Qed.

Lemma rstrip_empty (s : string) : rstrip s = EmptyString <-> all_space s = true.
Proof.
  induction s as [|c s IH]; cbn; [tauto|].
  destruct (rstrip s) as [|c' r].
  - destruct (py_isspace c); cbn; [|split; discriminate].
    split; intros _; [apply IH|]; reflexivity.
  - split; [discriminate|]. intros H. apply andb_true_iff in H.
    destruct H as [_ H]. apply IH in H. discriminate.
Qed.

Lemma all_space_lstrip (s : string) : all_space (lstrip s) = all_space s.
Proof.
  induction s as [|c s IH]; cbn; [reflexivity|].
  destruct (py_isspace c) eqn:E; cbn; [exact IH|]. rewrite E. reflexivity.
Qed.

(** A string is empty once trimmed exactly when it holds white space only. *)
Lemma strip_empty (s : string) : strip s = EmptyString <-> all_space s = true.
Proof.
  unfold strip. rewrite rstrip_empty, all_space_lstrip. tauto.
Qed.

Lemma strip_examples :
  strip "  " = EmptyString
  /\ strip "  Ann B. " = "Ann B."%string
  /\ strip (String (ascii_of_nat 9) (String (ascii_of_nat 10) EmptyString))
     = EmptyString.
Proof. repeat split. Qed.

Lemma py_not_true (s : string) : py_not s = true <-> s = EmptyString.
Proof. destruct s; cbn; split; congruence. Qed.

Lemma valid_text (name sid : string) :
  strip name <> EmptyString -> strip sid <> EmptyString ->
  py_not (strip name) || py_not (strip sid) = false.
Proof.
  intros Hn Hs. apply orb_false_iff.
  split; apply not_true_is_false; intros H; apply py_not_true in H; contradiction.
Qed.

Lemma invalid_text (name sid : string) :
  strip name = EmptyString \/ strip sid = EmptyString ->
  py_not (strip name) || py_not (strip sid) = true.
Proof.
  intros [H|H]; apply orb_true_iff; [left|right]; apply py_not_true; assumption.
Qed.

Section RegisterButton.
Context {FT : FloatText} {SK : Sklearn}.

(** [post_student] always returns normally; a store-level failure only
    leaves an error on the page. *)
Lemma post_student_run (row : json) (s : state) :
  post_student row s
  = (Ok tt,
     match request_failure (next_reply s) with
     | Some e =>
         set_ui (ui s ++ [(error, UploadFailed e)]) (send (POST row) (sheet s) s)
     | None =>
         send (POST row) (rows_after_post (next_reply s) (sheet s) row) s
     end).
Proof.
  unfold post_student, try_except, bind, requests_post, raise_for_status,
    request_failure, rows_after_post, raise, ret.
  destruct (next_reply s) as [|cause|st b]; cbn; try reflexivity.
  destruct ((400 <=? st)%Z && (st <? 600)%Z); reflexivity.
Qed.

Lemma register_click_invalid known emb name sid now s :
  emb = None \/ strip name = EmptyString \/ strip sid = EmptyString ->
  exists t,
    (t = NoFaceEmbedding \/ t = EnterNameAndId)
    /\ register_click known emb name sid now s
       = (Ok known, set_ui (ui s ++ [(error, t)]) s).
Proof.
  intros H. unfold register_click.
  destruct emb as [e|].
  - destruct H as [H|H]; [discriminate|].
    rewrite (invalid_text _ _ H).
    exists EnterNameAndId. split; [right; reflexivity|reflexivity].
  - exists NoFaceEmbedding. split; [left; reflexivity|reflexivity].
Qed.

Lemma register_click_match known e name sid now s i n :
  strip name <> EmptyString -> strip sid <> EmptyString ->
  find_match (embs known) e default_threshold = Ok (Some i) ->
  nth_error (names known) i = Some n ->
  register_click known (Some e) name sid now s
  = (Ok known, set_ui (ui s ++ [(info, SamePersonDetected n)]) s).
Proof.
  intros Hn Hs Hm Hi. unfold register_click.
  rewrite (valid_text _ _ Hn Hs).
  unfold bind at 1, lift at 1. rewrite Hm.
  unfold bind at 1, lift, getitem. rewrite Hi. reflexivity.
Qed.

Lemma register_click_no_match known e name sid now s :
  strip name <> EmptyString -> strip sid <> EmptyString ->
  find_match (embs known) e default_threshold = Ok None ->
  register_click known (Some e) name sid now s
  = fetch_registered
      (set_cache None
         (let s1 := snd (post_student (new_row now sid name e) s) in
          set_ui (ui s1 ++ [(success, RegisteredSuccessfully)]) s1)).
Proof.
  intros Hn Hs Hm. unfold register_click.
  rewrite (valid_text _ _ Hn Hs).
  unfold bind at 1, lift at 1. rewrite Hm.
  unfold bind at 1. rewrite post_student_run. cbn [snd].
  reflexivity.
Qed.

End RegisterButton.

(** ** The Matcher: the selected index *)

Lemma ones_length : length ones = EMB_SIZE.
Proof. apply repeat_length. Qed.

Lemma zeros_length : length zeros = EMB_SIZE.
Proof. apply repeat_length. Qed.

Lemma shapes_agree_intro (known : list vec) (q : vec) :
  length q = EMB_SIZE -> Forall (fun k => length k = EMB_SIZE) known ->
  shapes_agree known q.
Proof.
  intros Hq Hk. split; [rewrite Hq; unfold EMB_SIZE; lia|].
  eapply Forall_impl; [|exact Hk]. cbn. intros k Hl. congruence.
Qed.

Section Selection.
Context {SK : Sklearn}.

(** C3: on an empty known list [find_match] returns no match without error;
    on a non-empty one that the library accepts (embeddings of the query's
    dimension, entries finite) it takes the index of [numpy.argmax] of the
    similarities that the library computes, which is the one index that
    holds the first occurrence of their maximum (they are numbers), and it
    returns that index if and only if the similarity there strictly exceeds
    [1 - threshold], and no match otherwise.  An index that [find_match]
    returns always is that first maximum. *)
Theorem find_match_selects_first_maximum :
  (forall (q : vec) (t : float), find_match [] q t = Ok None)
  /\ (forall (known : list vec) (q : vec) (t : float),
        known <> [] -> check_pairwise_arrays known q = true ->
        exists b s,
          np_argmax (pairwise_cosine known q) = Ok b
          /\ nth_error (pairwise_cosine known q) b = Some s
          /\ (Forall (fun x => is_nan x = false) (pairwise_cosine known q) ->
              first_max (pairwise_cosine known q) b)
          /\ (forall b', first_max (pairwise_cosine known q) b' -> b' = b)
          /\ (find_match known q t = Ok (Some b) <-> (1 - t <? s)%float = true)
          /\ (find_match known q t = Ok None <-> (1 - t <? s)%float = false)
          /\ (forall i, find_match known q t = Ok (Some i) ->
                first_max (pairwise_cosine known q) i)).
Proof.
  split; [reflexivity|].
  intros known q t Hne Hc.
  destruct (find_match_nonempty known q t Hne Hc) as (b & s & Hb & Hs & Hspec & Hres).
  exists b, s. split; [assumption|]. split; [assumption|]. split.
  { intros Hnum. destruct Hspec as [H|(v & Hv & Hn & _)]; [assumption|exfalso].
    rewrite Forall_forall in Hnum.
    rewrite (Hnum v (nth_error_In _ _ Hv)) in Hn. discriminate. }
  split.
  { intros b' Hb'. destruct Hspec as [H|H].
    - eapply first_max_unique; eassumption.
    - exfalso. eapply first_nan_not_max; eassumption. }
  rewrite Hres. split; [|split].
  - destruct (1 - t <? s)%float; split; congruence.
  - destruct (1 - t <? s)%float; split; congruence.
  - intros i Hi.
    destruct (1 - t <? s)%float eqn:G; [|discriminate].
    injection Hi as <-.
    destruct Hspec as [H|(v & Hv & Hn & _)]; [assumption|exfalso].
    assert (v = s) by congruence. subst v.
    rewrite (proj2 (float_ltb_number _ _ G)) in Hn. discriminate.
Qed.


End Selection.

(** *** The Matcher on the sample data *)

(** The similarities of the sample reading for three embeddings and a
    query: they are orthogonal, at cosine 0.95 (the example of section 8),
    and equal to it. *)
Lemma sample_similarities :
  exists s,
    pairwise_cosine (Sklearn:=sequential) [unit_y; near_x; unit_x; unit_x] unit_x
    = [0; s; 1; 1]%float
    /\ (0.94 <? s)%float = true /\ (s <? 0.96)%float = true.
Proof. eexists. vm_compute. repeat split. Qed.

(** The example of section 8: a query at cosine similarity 0.95 to the one
    known embedding matches it under the threshold 0.4, an orthogonal query
    does not. *)
Lemma find_match_section_8 :
  find_match (SK:=sequential) [unit_x] near_x default_threshold = Ok (Some 0%nat)
  /\ find_match (SK:=sequential) [unit_x] unit_y default_threshold = Ok None.
Proof. split; vm_compute; reflexivity. Qed.

Lemma find_match_selects_first_maximum_witness :
  [unit_y; near_x; unit_x; unit_x] <> []
  /\ check_pairwise_arrays [unit_y; near_x; unit_x; unit_x] unit_x = true
  /\ np_argmax
       (pairwise_cosine (Sklearn:=sequential) [unit_y; near_x; unit_x; unit_x] unit_x)
     = Ok 2%nat
  /\ first_max
       (pairwise_cosine (Sklearn:=sequential) [unit_y; near_x; unit_x; unit_x] unit_x)
       2
  /\ find_match (SK:=sequential) [unit_y; near_x; unit_x; unit_x] unit_x
       default_threshold
     = Ok (Some 2%nat)
  /\ find_match (SK:=sequential) [unit_y; near_x; unit_x; unit_x] unit_x 0%float
     = Ok None.
Proof.
  assert (Hne : [unit_y; near_x; unit_x; unit_x] <> []) by discriminate.
  assert (Hc : check_pairwise_arrays [unit_y; near_x; unit_x; unit_x] unit_x = true)
    by (vm_compute; reflexivity).
  assert (Hnum : Forall (fun x => is_nan x = false)
            (pairwise_cosine (Sklearn:=sequential)
               [unit_y; near_x; unit_x; unit_x] unit_x))
    by (apply forallb_numbers; vm_compute; reflexivity).
  split; [exact Hne|]. split; [exact Hc|].
  destruct (proj2 (find_match_selects_first_maximum (SK:=sequential))
              [unit_y; near_x; unit_x; unit_x] unit_x default_threshold Hne Hc)
    as (b & s & Hb & Hs & Hfm & _ & Hsome & _).
  destruct (proj2 (find_match_selects_first_maximum (SK:=sequential))
              [unit_y; near_x; unit_x; unit_x] unit_x 0%float Hne Hc)
    as (b0 & s0 & Hb0 & Hs0 & _ & _ & _ & Hnone & _).
  assert (Hb2 : np_argmax
            (pairwise_cosine (Sklearn:=sequential)
               [unit_y; near_x; unit_x; unit_x] unit_x) = Ok 2%nat)
    by (vm_compute; reflexivity).
  assert (b = 2%nat) by congruence. subst b.
  assert (b0 = 2%nat) by congruence. subst b0.
  assert (Hs2 : nth_error
            (pairwise_cosine (Sklearn:=sequential)
               [unit_y; near_x; unit_x; unit_x] unit_x) 2 = Some 1%float)
    by (vm_compute; reflexivity).
  assert (s = 1%float) by congruence. subst s.
  assert (s0 = 1%float) by congruence. subst s0.
  split; [exact Hb2|]. split; [exact (Hfm Hnum)|].
  split; [apply Hsome; vm_compute; reflexivity|].
  apply Hnone. vm_compute. reflexivity.
Defined.



Lemma find_match_ones :
  find_match (SK:=sequential) [ones] ones default_threshold = Ok (Some 0%nat).
Proof. vm_compute. reflexivity. Qed.

(** ** Validation, login, and the bounds of the lookups *)

Section Policies.
Context {FT : FloatText} {SK : Sklearn}.

(** C5: registration with no embedding, or with a name or a student id that
    is empty once trimmed, ends in a validation error; nothing is sent to
    the store, and the stored rows and the cache stay as they are. *)
Theorem register_validation (known : knownset) (emb : option vec)
    (name sid now : string) (s : state) :
  emb = None \/ strip name = EmptyString \/ strip sid = EmptyString ->
  exists t s',
    (t = NoFaceEmbedding \/ t = EnterNameAndId)
    /\ register_click known emb name sid now s = (Ok known, s')
    /\ ui s' = ui s ++ [(error, t)]
    /\ sent s' = sent s /\ sheet s' = sheet s /\ cache s' = cache s.
Proof.
  intros H.
  destruct (register_click_invalid known emb name sid now s H) as (t & Ht & Hrun).
  exists t, (set_ui (ui s ++ [(error, t)]) s).
  repeat split; assumption.
Qed.

(** C7: a login with an embedding ends in [NoStudentsRegistered] on an empty
    KnownSet, and on a non-empty one in [WelcomeBack] with the matched name
    (which also becomes the session identity) or in [FaceNotRecognised],
    according to the Matcher; the first and the last differ. *)
Theorem login_outcomes (known : knownset) (e : vec) (s : state) :
  (embs known = [] ->
     login_click known (Some e) s
     = (Ok tt, set_ui (ui s ++ [(error, NoStudentsRegistered)]) s))
  /\ (forall i, embs known <> [] -> lockstep known ->
        find_match (embs known) e default_threshold = Ok (Some i) ->
        exists n,
          nth_error (names known) i = Some n
          /\ login_click known (Some e) s
             = (Ok tt, set_session (Some n)
                         (set_ui (ui s ++ [(success, WelcomeBack n)]) s)))
  /\ (embs known <> [] ->
        find_match (embs known) e default_threshold = Ok None ->
        login_click known (Some e) s
        = (Ok tt, set_ui (ui s ++ [(error, FaceNotRecognised)]) s))
  /\ (error, NoStudentsRegistered) <> (error, FaceNotRecognised).
Proof.
  unfold login_click. repeat split.
  - intros ->. reflexivity.
  - intros i Hne Hl Hm.
    destruct (getitem_lockstep known i Hl (find_match_bound _ _ _ _ Hm))
      as (n & Hn & Hg).
    exists n. split; [assumption|].
    destruct (embs known) as [|k0 rest] eqn:E; [congruence|].
    unfold bind at 1, lift at 1. rewrite Hm.
    unfold bind at 1, lift at 1. rewrite Hg. reflexivity.
  - intros Hne Hm.
    destruct (embs known) as [|k0 rest] eqn:E; [congruence|].
    unfold bind at 1, lift at 1. rewrite Hm. reflexivity.
  - discriminate.
Qed.

Lemma register_click_safe known emb name sid now s :
  lockstep known -> cache_ok s ->
  cache_ok (snd (register_click known emb name sid now s))
  /\ fst (register_click known emb name sid now s) <> Raise IndexError
  /\ (session (snd (register_click known emb name sid now s)) = session s).
Proof.
  intros Hl Hc.
  destruct emb as [e|].
  2:{ cbn. repeat split; [assumption|discriminate]. }
  destruct (py_not (strip name) || py_not (strip sid)) eqn:V.
  { unfold register_click. rewrite V. cbn. repeat split; [assumption|discriminate]. }
  apply orb_false_iff in V. destruct V as [Vn Vs].
  assert (Hn : strip name <> EmptyString)
    by (intros H; apply py_not_true in H; congruence).
  assert (Hs : strip sid <> EmptyString)
    by (intros H; apply py_not_true in H; congruence).
  destruct (find_match (embs known) e default_threshold) as [[i|]|x] eqn:Hm.
  - destruct (getitem_lockstep known i Hl (find_match_bound _ _ _ _ Hm))
      as (n & Hi & _).
    rewrite (register_click_match known e name sid now s i n Hn Hs Hm Hi).
    cbn. repeat split; [assumption|discriminate].
  - rewrite (register_click_no_match known e name sid now s Hn Hs Hm).
    match goal with |- context [fetch_registered ?st] =>
      destruct (fetch_registered_ok st) as (ks & s' & Hrun & _ & Hc' & Hsess)
    end.
    { exact I. }
    rewrite Hrun. cbn [fst snd]. split; [assumption|]. split; [discriminate|].
    rewrite Hsess. rewrite post_student_run. cbn.
    destruct (request_failure (next_reply s)); reflexivity.
  - unfold register_click. rewrite (valid_text _ _ Hn Hs).
    unfold bind at 1, lift at 1. rewrite Hm. cbn.
    split; [assumption|]. split; [|reflexivity].
    intros [= ->]. exact (find_match_no_index_error _ _ _ Hm).
Qed.

Lemma login_click_safe known emb s :
  lockstep known -> cache_ok s ->
  cache_ok (snd (login_click known emb s))
  /\ fst (login_click known emb s) <> Raise IndexError.
Proof.
  intros Hl Hc.
  destruct emb as [e|]; [|cbn; split; [assumption|discriminate]].
  unfold login_click.
  pose proof (find_match_bound (embs known) e default_threshold) as Hb.
  pose proof (find_match_no_index_error (embs known) e default_threshold) as Hx.
  destruct (embs known) as [|k0 rest] eqn:E; [cbn; split; [assumption|discriminate]|].
  destruct (find_match (k0 :: rest) e default_threshold) as [[i|]|x] eqn:Hm.
  - destruct (getitem_lockstep known i Hl) as (n & _ & Hg).
    { rewrite E. apply Hb. reflexivity. }
    unfold bind, lift. cbn beta iota. rewrite Hg. cbn.
    split; [assumption|discriminate].
  - cbn. split; [assumption|discriminate].
  - cbn. split; [assumption|]. intros [= ->]. apply Hx. reflexivity.
Qed.

(** A run of the script is the pressed button's block, run on the KnownSet
    that [fetch_registered] returned. *)
Lemma script_run_unfold (ev : event) (s : state) :
  cache_ok s ->
  exists ks s2,
    lockstep ks /\ cache_ok s2 /\ session s2 = session s
    /\ script_run ev s
       = match ev with
         | ClickRegister emb name sid now =>
             (register_click ks emb name sid now ;; ret tt) s2
         | ClickLogin login_emb => login_click ks login_emb s2
         | ClickLogout => (Ok tt, set_session None s2)
         | Rerun | ClickRefresh => (Ok tt, s2)
         end.
Proof.
  intros Hc.
  assert (H1 : exists s1,
    (match ev with ClickRefresh => fetch_registered_clear | _ => ret tt end)
      (set_ui [] s) = (Ok tt, s1) /\ cache_ok s1 /\ session s1 = session s).
  { destruct ev; eexists; (split; [reflexivity|]);
      (split; [first [exact Hc|exact I]|reflexivity]). }
  destruct H1 as (s1 & Hrun1 & Hc1 & Hs1).
  destruct (fetch_registered_ok s1 Hc1) as (ks & s2 & Hrun2 & Hl & Hc2 & Hs2).
  exists ks, s2. split; [assumption|]. split; [assumption|].
  split; [congruence|].
  unfold script_run. unfold bind at 1. cbn beta iota.
  unfold bind at 1. rewrite Hrun1.
  unfold bind at 1. rewrite Hrun2.
  destruct ev; reflexivity.
Qed.

Lemma script_run_safe (ev : event) (s : state) :
  cache_ok s ->
  cache_ok (snd (script_run ev s)) /\ fst (script_run ev s) <> Raise IndexError.
Proof.
  intros Hc.
  destruct (script_run_unfold ev s Hc) as (ks & s2 & Hl & Hc2 & _ & ->).
  destruct ev as [| |emb name sid now|emb|].
  - cbn. split; [assumption|discriminate].
  - cbn. split; [assumption|discriminate].
  - pose proof (register_click_safe ks emb name sid now s2 Hl Hc2) as (Hc3 & Hr & _).
    unfold bind.
    destruct (register_click ks emb name sid now s2) as [[ks'|x] s3]; cbn in *.
    + split; [assumption|discriminate].
    + split; [assumption|]. congruence.
  - apply login_click_safe; assumption.
  - cbn. split; [exact Hc2|discriminate].
Qed.

Lemma session_after_cache_ok (evs : list event) (s : state) :
  cache_ok s -> cache_ok (session_after evs s).
Proof.
  revert s. induction evs as [|ev evs IH]; intros s Hc; cbn; [assumption|].
  apply IH. apply script_run_safe. assumption.
Qed.

(** C10: an index returned by [find_match] is below the number of known
    embeddings; [fetch_registered] always returns lists of one length; so
    [names_known[match_idx]] is defined on them, and, from a cache in
    lockstep, no run of the script, after any runs before it, raises
    [IndexError], and the cache stays in lockstep. *)
Theorem lookups_in_bounds :
  (forall (known : list vec) (q : vec) (t : float) (i : nat),
      find_match known q t = Ok (Some i) -> (i < length known)%nat)
  /\ (forall s : state, exists ks s',
        fetch_registered_body s = (Ok ks, s')
        /\ length (names ks) = length (embs ks)
        /\ length (full ks) = length (embs ks))
  /\ (forall (ks : knownset) (q : vec) (t : float) (i : nat),
        lockstep ks -> find_match (embs ks) q t = Ok (Some i) ->
        exists n, getitem (names ks) i = Ok n)
  /\ (forall (evs : list event) (ev : event) (s : state),
        cache_ok s ->
        cache_ok (snd (script_run ev (session_after evs s)))
        /\ fst (script_run ev (session_after evs s)) <> Raise IndexError).
Proof.
  split; [exact find_match_bound|]. split.
  { intros s. destruct (fetch_registered_body_total s) as (ks & s' & Hrun & [Hn Hf] & _).
    exists ks, s'. repeat split; assumption. }
  split.
  { intros ks q t i Hl Hm.
    destruct (getitem_lockstep ks i Hl (find_match_bound _ _ _ _ Hm)) as (n & _ & Hg).
    exists n. exact Hg. }
  intros evs ev s Hc. apply script_run_safe. apply session_after_cache_ok. exact Hc.
Qed.

End Policies.

Lemma register_validation_witness :
  (Some ones = None \/ strip "  " = EmptyString \/ strip "S001" = EmptyString)
  /\ exists t s',
       (t = NoFaceEmbedding \/ t = EnterNameAndId)
       /\ register_click (FT:=sample_text) (SK:=sequential) ann_known
            (Some ones) "  " "S001" "2024-05-02T10:00:00" fresh
          = (Ok ann_known, s')
       /\ ui s' = ui fresh ++ [(error, t)]
       /\ sent s' = sent fresh /\ sheet s' = sheet fresh /\ cache s' = cache fresh.
Proof.
  split; [right; left; reflexivity|].
  apply (register_validation (FT:=sample_text) (SK:=sequential)).
  right. left. reflexivity.
Defined.

Lemma login_outcomes_witness :
  login_click (SK:=sequential) empty_known (Some ones) fresh
  = (Ok tt, set_ui (ui fresh ++ [(error, NoStudentsRegistered)]) fresh)
  /\ (exists n,
        nth_error (names ann_known) 0 = Some n
        /\ login_click (SK:=sequential) ann_known (Some ones) fresh
           = (Ok tt, set_session (Some n)
                       (set_ui (ui fresh ++ [(success, WelcomeBack n)]) fresh)))
  /\ login_click (SK:=sequential) ann_known (Some zeros) fresh
     = (Ok tt, set_ui (ui fresh ++ [(error, FaceNotRecognised)]) fresh).
Proof.
  split; [|split].
  - apply (proj1 (login_outcomes (SK:=sequential) empty_known ones fresh)).
    reflexivity.
  - apply (proj1 (proj2 (login_outcomes (SK:=sequential) ann_known ones fresh))
             0%nat).
    + discriminate.
    + split; reflexivity.
    + exact find_match_ones.
  - apply (proj1 (proj2 (proj2 (login_outcomes (SK:=sequential) ann_known zeros
                                  fresh)))).
    + discriminate.
    + vm_compute. reflexivity.
Defined.

Lemma lookups_in_bounds_witness :
  find_match (SK:=sequential) [ones] ones default_threshold = Ok (Some 0%nat)
  /\ (0 < length [ones])%nat
  /\ lockstep ann_known
  /\ (exists n, getitem (names ann_known) 0 = Ok n)
  /\ cache_ok fresh
  /\ cache_ok
       (snd (script_run (FT:=sample_text) (SK:=sequential) (ClickLogin (Some ones))
               (session_after (FT:=sample_text) (SK:=sequential)
                  [ClickRegister (Some ones) "Ann" "S001" "2024-05-01T09:00:00"]
                  fresh)))
  /\ fst (script_run (FT:=sample_text) (SK:=sequential) (ClickLogin (Some ones))
            (session_after (FT:=sample_text) (SK:=sequential)
               [ClickRegister (Some ones) "Ann" "S001" "2024-05-01T09:00:00"]
               fresh))
     <> Raise IndexError.
Proof.
  assert (Hl : lockstep ann_known) by (split; reflexivity).
  split; [exact find_match_ones|].
  split; [exact (proj1 (lookups_in_bounds (FT:=sample_text) (SK:=sequential))
                   [ones] ones default_threshold 0%nat find_match_ones)|].
  split; [exact Hl|].
  split; [exact (proj1 (proj2 (proj2 (lookups_in_bounds (FT:=sample_text)
                                        (SK:=sequential))))
                   ann_known ones default_threshold 0%nat Hl find_match_ones)|].
  split; [exact I|].
  exact (proj2 (proj2 (proj2 (lookups_in_bounds (FT:=sample_text) (SK:=sequential))))
           [ClickRegister (Some ones) "Ann" "S001" "2024-05-01T09:00:00"]
           (ClickLogin (Some ones)) fresh I).
Defined.

(** ** Registration, refresh, and the dropped records *)




Section Registration.
Context {FT : FloatText} {SK : Sklearn}.

(** A call of [fetch_registered] that misses the cache and gets records
    through. *)
Lemma fetch_registered_records (s : state) (rows : list json) :
  cache s = None -> fetched_rows s = Some rows ->
  Forall (fun d => is_record d = true) rows ->
  exists s' ws,
    fetch_registered s = (Ok (known_of rows), s')
    /\ Forall (fun m => fst m = warning) ws
    /\ length ws = length (dropped rows)
    /\ ui s' = ui s ++ ws
    /\ cache s' = Some (known_of rows, ws)
    /\ sheet s' = sheet s /\ replies s' = tl (replies s)
    /\ sent s' = sent s ++ [GET] /\ session s' = session s.
Proof.
  intros Hc Hrows Hrec.
  destruct (fetch_registered_body_records (set_ui [] s) rows Hrows Hrec)
    as (ws & Hrun & Hw & Hlen).
  eexists _, ws. split; [apply fetch_registered_miss; eassumption|].
  cbn. repeat split; assumption.
Qed.

(** The no-match branch of the Register button, whatever the store does. *)
Lemma register_click_registered known e name sid now s :
  strip name <> EmptyString -> strip sid <> EmptyString ->
  find_match (embs known) e default_threshold = Ok None ->
  exists ks s' msgs,
    register_click known (Some e) name sid now s = (Ok ks, s')
    /\ lockstep ks
    /\ ui s'
       = ui s
         ++ match request_failure (next_reply s) with
            | Some x => [(error, UploadFailed x)]
            | None => []
            end
         ++ [(success, RegisteredSuccessfully)] ++ msgs
    /\ sent s' = sent s ++ [POST (new_row now sid name e); GET]
    /\ sheet s' = rows_after_post (next_reply s) (sheet s) (new_row now sid name e)
    /\ cache s' = Some (ks, msgs)
    /\ session s' = session s.
Proof.
  intros Hn Hs Hm.
  rewrite (register_click_no_match known e name sid now s Hn Hs Hm).
  match goal with |- context [fetch_registered ?st] => set (s3 := st) end.
  destruct (fetch_registered_body_total (set_ui [] s3))
    as (ks & sb & Hrun & Hl & Hsh & Hrep & Hsent & Hcache & Hsess).
  exists ks, (set_cache (Some (ks, ui sb)) (set_ui (ui s3 ++ ui sb) sb)), (ui sb).
  split; [apply fetch_registered_miss; [reflexivity|assumption]|].
  split; [assumption|].
  cbn [ui sent sheet cache session set_cache set_ui].
  rewrite Hsh, Hsent, Hsess. subst s3.
  rewrite post_student_run. cbn [snd].
  unfold rows_after_post, request_failure.
  destruct (next_reply s) as [|cause|st b]; cbn;
    try destruct ((400 <=? st)%Z && (st <? 600)%Z); cbn;
    rewrite <- ?app_assoc; repeat split; reflexivity.
Qed.


(** C6: for valid inputs and a KnownSet in lockstep, the Register button
    sends a POST exactly when the Matcher finds no match.  On a match the
    page gets [SamePersonDetected] with the matched name, nothing is sent
    and the stored rows stay as they are; on no match the row with the
    clock's timestamp, the trimmed id and name and the comma-joined text of
    the embedding is posted once, the page gets [RegisteredSuccessfully]
    (after the upload error, when the POST failed), and the KnownSet is
    fetched again and cached. *)
Theorem registration_iff_no_match (known : knownset) (e : vec)
    (name sid now : string) (s : state) (r : option nat) :
  strip name <> EmptyString -> strip sid <> EmptyString ->
  lockstep known ->
  find_match (embs known) e default_threshold = Ok r ->
  exists ks s',
    register_click known (Some e) name sid now s = (Ok ks, s')
    /\ match r with
       | Some i =>
           exists n,
             nth_error (names known) i = Some n
             /\ ui s' = ui s ++ [(info, SamePersonDetected n)]
             /\ sent s' = sent s /\ sheet s' = sheet s
       | None =>
           exists msgs,
             ui s'
             = ui s
               ++ match request_failure (next_reply s) with
                  | Some x => [(error, UploadFailed x)]
                  | None => []
                  end
               ++ [(success, RegisteredSuccessfully)] ++ msgs
             /\ cache s' = Some (ks, msgs)
             /\ sent s' = sent s ++ [POST (new_row now sid name e); GET]
             /\ sheet s'
                = rows_after_post (next_reply s) (sheet s) (new_row now sid name e)
       end
    /\ py_getitem (new_row now sid name e) "timestamp" = Ok (JStr now)
    /\ py_getitem (new_row now sid name e) "student_id" = Ok (JStr (strip sid))
    /\ py_getitem (new_row now sid name e) "name" = Ok (JStr (strip name))
    /\ py_getitem (new_row now sid name e) "encoding"
       = Ok (JStr (String.concat "," (map float_str e))).
Proof.
  intros Hn Hs Hl Hm.
  destruct r as [i|].
  - destruct (getitem_lockstep known i Hl (find_match_bound _ _ _ _ Hm))
      as (n & Hi & _).
    exists known, (set_ui (ui s ++ [(info, SamePersonDetected n)]) s).
    split; [apply (register_click_match known e name sid now s i n); assumption|].
    split; [exists n; repeat split; assumption|].
    repeat split; reflexivity.
  - destruct (register_click_registered known e name sid now s Hn Hs Hm)
      as (ks & s' & msgs & Hrun & _ & Hui & Hsent & Hsheet & Hcache & _).
    exists ks, s'. split; [assumption|]. split.
    + exists msgs. repeat split; assumption.
    + repeat split; reflexivity.
Qed.

(** C2, as amended: when the fetch of a refresh meets a store-level error,
    the run surfaces one error, and the KnownSet it leaves is the empty one:
    the cache holds it, so later runs see it until the next refresh; the
    stored rows and the session identity are untouched. *)
Theorem refresh_failure (s : state) (e : exn) :
  fetch_failure (next_reply s) = Some e ->
  exists s',
    script_run ClickRefresh s = (Ok tt, s')
    /\ ui s' = [(error, FailedToFetch e)]
    /\ cache s' = Some (empty_known, [(error, FailedToFetch e)])
    /\ fst (fetch_registered s') = Ok empty_known
    /\ sheet s' = sheet s /\ session s' = session s
    /\ sent s' = sent s ++ [GET].
Proof.
  intros Hf.
  unfold script_run. unfold bind at 1. cbn beta iota.
  unfold bind at 1. cbn beta iota. unfold fetch_registered_clear at 1.
  cbn beta iota. unfold bind at 1.
  erewrite fetch_registered_miss; cycle 1.
  - reflexivity.
  - apply fetch_registered_body_failure. exact Hf.
  - cbn. eexists. split; [reflexivity|]. cbn. repeat split.
Qed.

(** C8: when the fetch gets a list of records through, the KnownSet holds
    exactly the records whose encoding parses into 128 components (and that
    have a name), in the order of the list; each other record leaves one
    warning and nothing else, so the KnownSet is the one that the list
    without it gives. *)
Theorem fetch_drops_bad_records (s : state) (rows : list json) :
  fetched_rows s = Some rows ->
  Forall (fun d => is_record d = true) rows ->
  exists s' ws,
    fetch_registered_body s = (Ok (known_of rows), s')
    /\ ui s' = ui s ++ ws
    /\ Forall (fun m => fst m = warning) ws
    /\ length ws = length (dropped rows)
    /\ (forall d, In d rows -> encoding_of d = None ->
          In d (dropped rows) /\ ~ In d (full (known_of rows)))
    /\ (forall before d after,
          rows = before ++ d :: after -> encoding_of d = None ->
          known_of rows = known_of (before ++ after)).
Proof.
  intros Hrows Hrec.
  destruct (fetch_registered_body_records s rows Hrows Hrec) as (ws & Hrun & Hw & Hlen).
  eexists _, ws. split; [exact Hrun|]. split; [reflexivity|].
  split; [assumption|]. split; [assumption|].
  assert (Hbad : forall d, encoding_of d = None -> admitted d = false).
  { intros d Hd. unfold admitted, entry_of. rewrite Hd. reflexivity. }
  split.
  - intros d Hin Hd. split.
    + apply filter_In. split; [assumption|]. rewrite (Hbad d Hd). reflexivity.
    + cbn. intros Hin'. apply filter_In in Hin'. rewrite (Hbad d Hd) in Hin'.
      destruct Hin'. discriminate.
  - intros before d after -> Hd.
    assert (He : forall a b, entries (a ++ d :: b) = entries (a ++ b)).
    { intros a b. induction a as [|x a IH]; cbn.
      - unfold entry_of at 1. rewrite Hd. reflexivity.
      - rewrite IH. reflexivity. }
    unfold known_of. rewrite He, !filter_app. cbn [filter].
    rewrite (Hbad d Hd). reflexivity.
Qed.

End Registration.

(** ** The same embedding, twice *)

Section Twice.
Context {FT : FloatText} {SK : Sklearn}.



Lemma entry_of_size (d : json) (n : json) (e : vec) :
  entry_of d = Some (n, e) -> length e = EMB_SIZE.
Proof.
  unfold entry_of, encoding_of.
  destruct (py_getitem d "encoding") as [enc|]; [|discriminate].
  destruct (np_fromstring_value enc) as [emb|]; [|discriminate].
  destruct (length emb =? EMB_SIZE)%nat eqn:E; [|discriminate].
  destruct (py_getitem d "name"); [|discriminate].
  intros [= _ <-]. apply Nat.eqb_eq. exact E.
Qed.

Lemma known_of_sizes (rows : list json) :
  Forall (fun k => length k = EMB_SIZE) (embs (known_of rows)).
Proof.
  cbn. induction rows as [|d rows IH]; cbn; [constructor|].
  destruct (entry_of d) as [[n e]|] eqn:E; [|assumption].
  cbn. constructor; [|assumption]. eapply entry_of_size. eassumption.
Qed.




End Twice.

Section Runs.
Context {FT : FloatText} {SK : Sklearn}.






End Runs.

(** ** The claims on the sample data *)

(** *** The sample reading of number text *)

Lemma sample_text_ones :
  np_fromstring (FloatText:=sample_text) (encoding_text (FT:=sample_text) ones) = Ok ones.
Proof. vm_compute. reflexivity. Qed.

Lemma sample_text_zeros :
  np_fromstring (FloatText:=sample_text) (encoding_text (FT:=sample_text) zeros) = Ok zeros.
Proof. vm_compute. reflexivity. Qed.


Lemma find_match_nothing_known (e : vec) :
  find_match (SK:=sequential) (embs (known_of (FT:=sample_text) (sheet fresh))) e
    default_threshold
  = Ok None.
Proof. reflexivity. Qed.

(** *** Witnesses and counterexamples *)



Lemma registration_iff_no_match_witness :
  strip "Zed" <> EmptyString /\ strip " S009 " <> EmptyString
  /\ lockstep ann_known
  /\ find_match (SK:=sequential) (embs ann_known) zeros default_threshold = Ok None
  /\ exists ks s',
       register_click (FT:=sample_text) (SK:=sequential) ann_known (Some zeros)
         "Zed" " S009 " "2024-05-03T08:00:00" fresh = (Ok ks, s')
       /\ In (success, RegisteredSuccessfully) (ui s')
       /\ sent s'
          = [POST (new_row (FT:=sample_text) "2024-05-03T08:00:00"
                     " S009 " "Zed" zeros); GET]
       /\ py_getitem
            (new_row (FT:=sample_text) "2024-05-03T08:00:00" " S009 " "Zed" zeros)
            "student_id" = Ok (JStr "S009").
Proof.
  assert (Hn : strip "Zed" <> EmptyString) by discriminate.
  assert (Hs : strip " S009 " <> EmptyString) by discriminate.
  assert (Hl : lockstep ann_known) by (split; reflexivity).
  assert (Hm : find_match (SK:=sequential) (embs ann_known) zeros default_threshold
               = Ok None) by (vm_compute; reflexivity).
  split; [exact Hn|]. split; [exact Hs|]. split; [exact Hl|]. split; [exact Hm|].
  destruct (registration_iff_no_match (FT:=sample_text) (SK:=sequential) ann_known
              zeros "Zed" " S009 " "2024-05-03T08:00:00" fresh None Hn Hs Hl Hm)
    as (ks & s' & Hrun & (msgs & Hui & _ & Hsent & _) & _ & Hsid & _).
  exists ks, s'. split; [exact Hrun|]. split.
  { rewrite Hui. cbn. left. reflexivity. }
  split; [exact Hsent|exact Hsid].
Defined.

Lemma refresh_failure_witness :
  fetch_failure (next_reply ann_cached_offline)
  = Some (RequestException "Read timed out")
  /\ exists s',
       script_run (FT:=sample_text) (SK:=sequential) ClickRefresh
         ann_cached_offline = (Ok tt, s')
       /\ ui s' = [(error, FailedToFetch (RequestException "Read timed out"))]
       /\ cache s'
          = Some (empty_known,
                  [(error, FailedToFetch (RequestException "Read timed out"))])
       /\ fst (fetch_registered (FT:=sample_text) s') = Ok empty_known
       /\ sheet s' = sheet ann_cached_offline
       /\ session s' = session ann_cached_offline
       /\ sent s' = sent ann_cached_offline ++ [GET].
Proof.
  split; [reflexivity|].
  apply (refresh_failure (FT:=sample_text) (SK:=sequential) ann_cached_offline).
  reflexivity.
Defined.

(** C2, as stated, fails: a refresh that cannot reach the store replaces
    the KnownSet that held Ann's record by the empty one. *)
Lemma refresh_failure_counterexample :
  exists s',
    script_run (FT:=sample_text) (SK:=sequential) ClickRefresh
      ann_cached_offline = (Ok tt, s')
    /\ cache ann_cached_offline = Some (ann_known, [])
    /\ cache s'
       = Some (empty_known,
               [(error, FailedToFetch (RequestException "Read timed out"))])
    /\ cache s' <> cache ann_cached_offline
    /\ fst (fetch_registered (FT:=sample_text) s') = Ok empty_known.
Proof.
  eexists. split; [reflexivity|]. split; [reflexivity|]. split; [reflexivity|].
  split; [|reflexivity]. cbn. discriminate.
Qed.

(** The sample store gives Ann's record alone; the three-component record
    is the dropped one. *)
Lemma known_of_two_stored :
  known_of (FT:=sample_text) (sheet two_stored) = ann_known
  /\ dropped (FT:=sample_text) (sheet two_stored) = [short_row]
  /\ encoding_of (FT:=sample_text) short_row = None.
Proof. vm_compute. repeat split. Qed.

Lemma fetch_drops_bad_records_witness :
  fetched_rows two_stored = Some [short_row; ann_row]
  /\ Forall (fun d => is_record d = true) [short_row; ann_row]
  /\ exists s' ws,
       fetch_registered_body (FT:=sample_text) two_stored
       = (Ok (known_of (FT:=sample_text) [short_row; ann_row]), s')
       /\ ui s' = ui two_stored ++ ws
       /\ Forall (fun m => fst m = warning) ws
       /\ length ws = length (dropped (FT:=sample_text) [short_row; ann_row])
       /\ (forall d, In d [short_row; ann_row] ->
             encoding_of (FT:=sample_text) d = None ->
             In d (dropped (FT:=sample_text) [short_row; ann_row])
             /\ ~ In d (full (known_of (FT:=sample_text) [short_row; ann_row])))
       /\ (forall before d after,
             [short_row; ann_row] = before ++ d :: after ->
             encoding_of (FT:=sample_text) d = None ->
             known_of (FT:=sample_text) [short_row; ann_row]
             = known_of (FT:=sample_text) (before ++ after)).
Proof.
  assert (Hrows : fetched_rows two_stored = Some [short_row; ann_row])
    by reflexivity.
  assert (Hrec : Forall (fun d => is_record d = true) [short_row; ann_row])
    by (repeat constructor).
  split; [exact Hrows|]. split; [exact Hrec|].
  exact (fetch_drops_bad_records (FT:=sample_text) two_stored
           [short_row; ann_row] Hrows Hrec).
Defined.

(** C1, on the failing input: with the store out of reach, the Register
    button on a new face puts the upload error on the page and then
    [RegisteredSuccessfully]; one POST has been sent, and nothing is
    stored. *)
Theorem upload_failure_then_registered :
  exists s',
    register_click (FT:=sample_text) (SK:=sequential) empty_known (Some ones) "Ann" "S001"
      "2024-05-01T09:00:00" offline = (Ok empty_known, s')
    /\ ui s'
       = [(error, UploadFailed (RequestException "Read timed out"));
          (success, RegisteredSuccessfully)]
    /\ sent s'
       = [POST (new_row (FT:=sample_text) "2024-05-01T09:00:00" "S001" "Ann" ones);
          GET]
    /\ sheet s' = [].
Proof.
  eexists. split; [reflexivity|]. repeat split.
Qed.

(** *** The edges of the claims *)

(** An item of the fetched list that is not a record is not dropped: the
    handler of the failed item fails in turn, the fetch ends in the
    store-level error, and the records before it are lost with it. *)
Lemma non_record_item_fails_fetch :
  exists s',
    fetch_registered_body (FT:=sample_text)
      {| sheet := []; replies := [Answered 200 (Some (JArr [ann_row; JStr "n/a"]))];
         sent := []; cache := None; session := None; ui := [] |}
    = (Ok empty_known, s')
    /\ ui s' = [(error, FailedToFetch AttributeError)].
Proof. eexists. split; reflexivity. Qed.

(** * Further properties of the code *)

(** ** The Matcher: exceptions and threshold *)

Section MatcherProperties.
Context {SK : Sklearn}.

Lemma find_match_raise_intro (known : list vec) (q : vec) (t : float) :
  known <> [] -> ~ (shapes_agree known q /\ entries_finite known q) ->
  find_match known q t = Raise ValueError.
Proof.
  intros Hne Hsh. apply find_match_shape_error; [assumption|].
  destruct (check_pairwise_arrays known q) eqn:Hc; [|reflexivity].
  exfalso. apply Hsh. apply check_pairwise_arrays_shapes. exact Hc.
Qed.

(** X1: the only exception of [find_match] is [ValueError], raised exactly
    on a non-empty known list that [cosine_similarity] refuses: the shapes
    do not fit the query, or an entry of the known embeddings or of the
    query is [nan] or infinite. *)
Theorem find_match_raises_iff (known : list vec) (q : vec) (t : float) (e : exn) :
  find_match known q t = Raise e
  <-> known <> []
      /\ ~ (shapes_agree known q /\ entries_finite known q)
      /\ e = ValueError.
Proof.
  split.
  - intros Hm. apply find_match_raise_inv in Hm. destruct Hm as (Hne & Hc & ->).
    split; [assumption|]. split; [|reflexivity].
    intros H. apply check_pairwise_arrays_shapes in H. congruence.
  - intros (Hne & Hsh & ->). apply find_match_raise_intro; assumption.
Qed.

(** X2: [find_match] is monotone in the threshold: for [t <= t'], a match
    under [t] is the same match under [t'], and no match under [t'] is no
    match under [t]. *)
Theorem find_match_threshold_monotone (known : list vec) (q : vec) (t t' : float) :
  (t <=? t')%float = true ->
  (forall i, find_match known q t = Ok (Some i) ->
             find_match known q t' = Ok (Some i))
  /\ (find_match known q t' = Ok None -> find_match known q t = Ok None).
Proof.
  intros Hle. pose proof (float_sub_one_antitone t t' Hle) as Hcut.
  assert (Hup : forall i, find_match known q t = Ok (Some i) ->
                          find_match known q t' = Ok (Some i)).
  { intros i Hm.
    destruct (find_match_some_inv known q t i Hm) as (Hne & Hc & s & Hfm & Hs & G).
    destruct (find_match_nonempty known q t' Hne Hc)
      as (b & sb & _ & Hsb & Hspec & Hres).
    destruct Hspec as [Hb|Hb]; [|exfalso; eapply first_nan_not_max; eassumption].
    assert (b = i) by (eapply first_max_unique; eassumption). subst b.
    assert (sb = s) by congruence. subst sb.
    rewrite Hres, (float_leb_ltb_trans _ _ _ Hcut G). reflexivity. }
  split; [exact Hup|].
  intros Hm'.
  destruct (find_match known q t) as [[i|]|x] eqn:Hm; [|reflexivity|].
  - rewrite (Hup i eq_refl) in Hm'. discriminate.
  - apply find_match_raise_inv in Hm. destruct Hm as (Hne & Hc & _).
    rewrite (find_match_shape_error known q t' Hne Hc) in Hm'. discriminate.
Qed.

End MatcherProperties.

(** ** The fetch keeps the records together *)

Section Aligned.
Context {FT : FloatText} {SK : Sklearn}.

Lemma empty_known_aligned : aligned empty_known.
Proof.
  split; [apply empty_known_lockstep|].
  intros [|i] d H; discriminate.
Qed.

Lemma append_record_aligned acc name emb d :
  aligned acc -> entry_of d = Some (name, emb) ->
  aligned (append_record acc name emb d).
Proof.
  intros [Hl Ha] He. split; [apply append_record_lockstep; assumption|].
  destruct Hl as [Hn Hf]. cbn [append_record names embs full].
  intros i x Hi.
  destruct (Nat.lt_ge_cases i (length (full acc))) as [L|G].
  - rewrite nth_error_app1 in Hi by assumption.
    destruct (Ha i x Hi) as (n & e & Hni & Hei & Hx).
    exists n, e. rewrite !nth_error_app1 by lia. auto.
  - rewrite nth_error_app2 in Hi by assumption.
    destruct (i - length (full acc))%nat as [|k] eqn:Ek;
      [|destruct k; discriminate].
    cbn in Hi. injection Hi as <-.
    assert (i = length (full acc)) by lia. subst i.
    exists name, emb.
    rewrite nth_error_app2 by lia. rewrite nth_error_app2 by lia.
    replace (length (full acc) - length (names acc))%nat with 0%nat by lia.
    replace (length (full acc) - length (embs acc))%nat with 0%nat by lia.
    auto.
Qed.

Lemma fetch_step_aligned (d : json) (acc : knownset) (s : state) :
  aligned acc ->
  match fst (fetch_step d acc s) with
  | Ok acc' => aligned acc'
  | Raise _ => True
  end.
Proof.
  intros Hacc.
  unfold fetch_step, try_except, bind, lift, entry_of, encoding_of.
  pose proof (fun n e => append_record_aligned acc n e d Hacc) as Happ.
  unfold entry_of, encoding_of in Happ.
  destruct (py_getitem d "encoding") as [enc|x]; cbn.
  2:{ destruct (py_get d "name" (JStr "Unknown")); cbn; [assumption|exact I]. }
  destruct (np_fromstring_value enc) as [emb|x]; cbn.
  2:{ destruct (py_get d "name" (JStr "Unknown")); cbn; [assumption|exact I]. }
  destruct (length emb =? EMB_SIZE)%nat; cbn.
  - destruct (py_getitem d "name") as [name|x]; cbn.
    + apply Happ. reflexivity.
    + destruct (py_get d "name" (JStr "Unknown")); cbn; [assumption|exact I].
  - destruct (py_getitem d "name"); cbn.
    + assumption.
    + destruct (py_get d "name" (JStr "Unknown")); cbn; [assumption|exact I].
Qed.

Lemma fetch_loop_aligned (items : list json) :
  forall (acc : knownset) (s : state),
  aligned acc ->
  match fst (fetch_loop items acc s) with
  | Ok acc' => aligned acc'
  | Raise _ => True
  end.
Proof.
  induction items as [|d items IH]; intros acc s Hacc.
  - cbn. assumption.
  - cbn [fetch_loop]. unfold bind.
    pose proof (fetch_step_aligned d acc s Hacc) as Hr.
    destruct (fetch_step d acc s) as [[acc'|x] s1]; cbn in *.
    + apply IH. assumption.
    + exact I.
Qed.

(** Whatever the store replies, the lists that the fetch returns are
    aligned. *)
Lemma fetch_registered_body_aligned (s : state) (ks : knownset) (s' : state) :
  fetch_registered_body s = (Ok ks, s') -> aligned ks.
Proof.
  assert (Hloop : forall items s0 ks0 s1,
    try_except (fetch_loop items empty_known)
      (fun e => st_error (FailedToFetch e);; ret empty_known) s0 = (Ok ks0, s1) ->
    aligned ks0).
  { intros items s0 ks0 s1. unfold try_except.
    pose proof (fetch_loop_aligned items empty_known s0 empty_known_aligned) as Hr.
    destruct (fetch_loop items empty_known s0) as [[k|x] s2]; cbn [fst] in Hr.
    - intros [= <- _]. assumption.
    - intros [= <- _]. apply empty_known_aligned. }
  unfold fetch_registered_body, try_except, bind at 1, requests_get.
  unfold try_except in Hloop.
  destruct (next_reply s) as [|cause|st b].
  - unfold bind, raise_for_status, resp_json, lift, ret, raise. cbn. apply Hloop.
  - intros [= <- _]. apply empty_known_aligned.
  - unfold bind, raise_for_status, resp_json, lift, ret, raise. cbn.
    destruct ((400 <=? st)%Z && (st <? 600)%Z).
    { intros [= <- _]. apply empty_known_aligned. }
    destruct b as [data|]; [|intros [= <- _]; apply empty_known_aligned].
    destruct (py_iter data) as [items|x];
      [|intros [= <- _]; apply empty_known_aligned].
    cbn. apply Hloop.
Qed.

Lemma aligned_sizes (ks : knownset) :
  aligned ks -> Forall (fun k => length k = EMB_SIZE) (embs ks).
Proof.
  intros [[Hn Hf] Ha]. apply Forall_forall. intros e Hin.
  destruct (In_nth_error _ _ Hin) as (i & Hi).
  destruct (nth_error (full ks) i) as [d|] eqn:Hd.
  - destruct (Ha i d Hd) as (n & e' & _ & He' & Hent).
    pose proof (eq_trans (eq_sym He') Hi) as [= ->].
    eapply entry_of_size. eassumption.
  - apply nth_error_None in Hd.
    assert (i < length (embs ks))%nat; [|lia].
    apply nth_error_Some. intros E.
    pose proof (eq_trans (eq_sym E) Hi). discriminate.
Qed.

End Aligned.

(** ** The effects of a run *)

Section Effects.
Context {FT : FloatText} {SK : Sklearn}.

Lemma fetch_registered_miss_run (s : state) :
  cache s = None ->
  exists ks sb,
    fetch_registered_body (set_ui [] s) = (Ok ks, sb)
    /\ aligned ks
    /\ fetch_registered s
       = (Ok ks,
          {| sheet := sheet s; replies := tl (replies s);
             sent := sent s ++ [GET]; cache := Some (ks, ui sb);
             session := session s; ui := ui s ++ ui sb |}).
Proof.
  intros Hc.
  destruct (fetch_registered_body_total (set_ui [] s))
    as (ks & sb & Hrun & _ & Hsh & Hrep & Hsent & _ & Hsess).
  exists ks, sb. split; [assumption|].
  split; [eapply fetch_registered_body_aligned; eassumption|].
  rewrite (fetch_registered_miss s ks sb Hc Hrun).
  unfold set_cache, set_ui. cbn in *. rewrite Hsh, Hrep, Hsent, Hsess. reflexivity.
Qed.

(** Every call of [fetch_registered] returns and leaves its result in the
    cache; it sends one GET when the cache was empty and nothing
    otherwise. *)
Lemma fetch_registered_any (s : state) :
  exists ks msgs,
    fetch_registered s
    = (Ok ks,
       {| sheet := sheet s;
          replies := match cache s with None => tl (replies s) | Some _ => replies s end;
          sent := match cache s with None => sent s ++ [GET] | Some _ => sent s end;
          cache := Some (ks, msgs);
          session := session s; ui := ui s ++ msgs |})
    /\ (cache_aligned s -> aligned ks)
    /\ match cache s with
       | Some c => c = (ks, msgs)
       | None => exists sb, fetch_registered_body (set_ui [] s) = (Ok ks, sb)
                            /\ ui sb = msgs
       end.
Proof.
  destruct (cache s) as [[ks msgs]|] eqn:E.
  - exists ks, msgs. split; [|split; [|reflexivity]].
    + rewrite (fetch_registered_hit s ks msgs E). unfold set_ui.
      rewrite E. reflexivity.
    + unfold cache_aligned. rewrite E. auto.
  - destruct (fetch_registered_miss_run s E) as (ks & sb & Hb & Ha & Hrun).
    exists ks, (ui sb). split; [assumption|]. split; [auto|].
    exists sb. split; [assumption|reflexivity].
Qed.

Lemma script_run_start (ev : event) (s : state) :
  script_run ev s
  = (known <- fetch_registered ;;
     match ev with
     | ClickRegister emb name sid now =>
         register_click known emb name sid now ;; ret tt
     | ClickLogin login_emb => login_click known login_emb
     | ClickLogout => fun s => (Ok tt, set_session None s)
     | Rerun | ClickRefresh => ret tt
     end) (start ev s).
Proof. destruct ev; reflexivity. Qed.

Lemma start_fields (ev : event) (s : state) :
  sheet (start ev s) = sheet s /\ replies (start ev s) = replies s
  /\ sent (start ev s) = sent s /\ session (start ev s) = session s
  /\ ui (start ev s) = []
  /\ cache (start ev s)
     = match ev with ClickRefresh => None | _ => cache s end.
Proof. destruct ev; repeat split. Qed.

Lemma start_cache_fetches (ev : event) (s : state) :
  (fetches ev s = true /\ cache (start ev s) = None)
  \/ (fetches ev s = false /\ cache (start ev s) = cache s
      /\ exists c, cache s = Some c).
Proof.
  unfold fetches.
  destruct ev; cbn; try (left; split; reflexivity);
    destruct (cache s) as [c|]; try (left; split; reflexivity);
    right; (split; [reflexivity|]); (split; [reflexivity|]); exists c; reflexivity.
Qed.

Lemma start_aligned (ev : event) (s : state) :
  cache_aligned s -> cache_aligned (start ev s).
Proof. unfold cache_aligned. destruct ev; cbn; auto. Qed.

(** The Register button puts one element on the page and returns, or it
    raises and leaves the state as it is, or it is pressed with valid input
    that matches nothing known. *)
Lemma register_click_cases known emb name sid now s :
  (exists m, register_click known emb name sid now s
             = (Ok known, set_ui (ui s ++ [m]) s))
  \/ (exists x e, emb = Some e
         /\ register_click known emb name sid now s = (Raise x, s)
         /\ (find_match (embs known) e default_threshold = Raise x
             \/ exists i, find_match (embs known) e default_threshold = Ok (Some i)
                          /\ getitem (names known) i = Raise x))
  \/ (exists e, emb = Some e /\ strip name <> EmptyString
                /\ strip sid <> EmptyString
                /\ find_match (embs known) e default_threshold = Ok None).
Proof.
  destruct emb as [e|].
  2:{ left. eexists. reflexivity. }
  destruct (py_not (strip name) || py_not (strip sid)) eqn:V.
  { left. unfold register_click. rewrite V. eexists. reflexivity. }
  pose proof V as V'.
  apply orb_false_iff in V. destruct V as [Vn Vs].
  assert (Hn : strip name <> EmptyString)
    by (intros H; apply py_not_true in H; congruence).
  assert (Hs : strip sid <> EmptyString)
    by (intros H; apply py_not_true in H; congruence).
  destruct (find_match (embs known) e default_threshold) as [[i|]|x] eqn:Hm.
  - destruct (getitem (names known) i) as [n|x] eqn:Hg.
    + left. unfold register_click. rewrite V'.
      unfold bind at 1, lift at 1. rewrite Hm.
      unfold bind at 1, lift at 1. rewrite Hg. eexists. reflexivity.
    + right. left. exists x, e. split; [reflexivity|]. split.
      * unfold register_click. rewrite V'.
        unfold bind at 1, lift at 1. rewrite Hm.
        unfold bind at 1, lift at 1. rewrite Hg. reflexivity.
      * right. exists i.
        split; [first [exact Hm|reflexivity]|first [exact Hg|reflexivity]].
  - right. right. exists e. repeat split; assumption.
  - right. left. exists x, e. split; [reflexivity|]. split.
    + unfold register_click. rewrite V'.
      unfold bind at 1, lift at 1. rewrite Hm. reflexivity.
    + left. first [exact Hm|reflexivity].
Qed.

(** The Login button changes nothing but the page and the session
    identity. *)
Lemma login_click_frame known emb s :
  sheet (snd (login_click known emb s)) = sheet s
  /\ replies (snd (login_click known emb s)) = replies s
  /\ sent (snd (login_click known emb s)) = sent s
  /\ cache (snd (login_click known emb s)) = cache s.
Proof.
  destruct emb as [e|]; [|repeat split].
  unfold login_click.
  destruct (embs known) as [|k0 rest]; [repeat split|].
  unfold bind, lift.
  destruct (find_match (k0 :: rest) e default_threshold) as [[i|]|x];
    [|repeat split..].
  destruct (getitem (names known) i); repeat split.
Qed.

(** On aligned lists of finite embeddings the Matcher does not raise for a
    query of 128 finite components, and the name of its result can be
    looked up. *)
Lemma find_match_aligned (ks : knownset) (e : vec) (t : float) :
  aligned ks -> finite_known ks -> length e = EMB_SIZE -> all_finite e = true ->
  find_match (embs ks) e t = Ok None
  \/ exists i n, find_match (embs ks) e t = Ok (Some i)
                 /\ nth_error (names ks) i = Some n
                 /\ getitem (names ks) i = Ok n.
Proof.
  intros Ha Hfin He Hfe.
  destruct (find_match (embs ks) e t) as [[i|]|x] eqn:Hm.
  - right. destruct Ha as [Hl _].
    destruct (getitem_lockstep ks i Hl (find_match_bound _ _ _ _ Hm))
      as (n & Hn & Hg).
    exists i, n. repeat split; assumption.
  - left. reflexivity.
  - exfalso. apply find_match_raise_inv in Hm. destruct Hm as (_ & Hc & _).
    rewrite check_pairwise_arrays_true in Hc; [discriminate| |].
    + split; [rewrite He; unfold EMB_SIZE; lia|].
      eapply Forall_impl; [|apply aligned_sizes; exact Ha].
      cbn. intros k Hk. congruence.
    + split; [assumption|]. apply Forall_forall. apply forallb_forall. exact Hfin.
Qed.

Lemma register_click_returns known emb name sid now s :
  aligned known -> finite_known known -> cache_aligned s ->
  match emb with
  | Some e => length e = EMB_SIZE /\ all_finite e = true
  | None => True
  end ->
  exists ks s', register_click known emb name sid now s = (Ok ks, s')
                /\ cache_aligned s'.
Proof.
  intros Ha Hfin Hc He.
  destruct (register_click_cases known emb name sid now s)
    as [(m & Hrun)|[(x & e & -> & Hrun & Hr)|(e & -> & Hn & Hs & Hm)]].
  - eexists _, _. split; [exact Hrun|exact Hc].
  - exfalso. destruct He as [He Hfe].
    destruct (find_match_aligned known e default_threshold Ha Hfin He Hfe)
      as [Hm|(i & n & Hm & Hi & Hg)];
      destruct Hr as [Hr|(j & Hr & Hj)]; congruence.
  - rewrite (register_click_no_match known e name sid now s Hn Hs Hm).
    match goal with |- context [fetch_registered ?st] =>
      destruct (fetch_registered_any st) as (ks & msgs & Hf & Hal & _)
    end.
    eexists _, _. split; [exact Hf|].
    unfold cache_aligned. cbn. apply Hal. exact I.
Qed.

Lemma login_click_returns known emb s :
  aligned known -> finite_known known ->
  match emb with
  | Some e => length e = EMB_SIZE /\ all_finite e = true
  | None => True
  end ->
  fst (login_click known emb s) = Ok tt.
Proof.
  intros Ha Hfin He.
  destruct emb as [e|]; [|reflexivity]. destruct He as [He Hfe].
  unfold login_click.
  destruct (find_match_aligned known e default_threshold Ha Hfin He Hfe)
    as [Hm|(i & n & Hm & Hi & Hg)];
    destruct (embs known) as [|k0 rest]; try reflexivity.
  - unfold bind at 1, lift at 1. rewrite Hm. reflexivity.
  - unfold bind at 1, lift at 1. rewrite Hm.
    unfold bind at 1, lift at 1. rewrite Hg. reflexivity.
Qed.

Lemma script_run_aligned (ev : event) (s : state) :
  cache_aligned s -> cache_aligned (snd (script_run ev s)).
Proof.
  intros Hc. rewrite script_run_start.
  destruct (fetch_registered_any (start ev s)) as (ks & msgs & Hf & Hal & _).
  specialize (Hal (start_aligned ev s Hc)).
  unfold bind at 1. rewrite Hf.
  match goal with |- context [match ev with _ => _ end ?st] => set (s2 := st) end.
  assert (Hc2 : cache_aligned s2) by exact Hal.
  destruct ev as [| |emb name sid now|emb|]; try exact Hc2.
  - destruct (register_click_cases ks emb name sid now s2)
      as [(m & Hrun)|[(x & e & -> & Hrun & _)|(e & -> & Hn & Hs & Hm)]].
    + unfold bind. rewrite Hrun. exact Hc2.
    + unfold bind. rewrite Hrun. exact Hc2.
    + unfold bind at 1.
      rewrite (register_click_no_match ks e name sid now s2 Hn Hs Hm).
      match goal with |- context [fetch_registered ?st] =>
        destruct (fetch_registered_any st) as (ks' & msgs' & Hf' & Hal' & _)
      end.
      rewrite Hf'. cbn. unfold cache_aligned. cbn. apply Hal'. exact I.
  - unfold cache_aligned.
    destruct (login_click_frame ks emb s2) as (_ & _ & _ & ->). exact Hc2.
Qed.

Lemma session_after_aligned (evs : list event) (s : state) :
  cache_aligned s -> cache_aligned (session_after evs s).
Proof.
  revert s. induction evs as [|ev evs IH]; intros s Hc; cbn; [assumption|].
  apply IH. apply script_run_aligned. assumption.
Qed.

End Effects.

Section Traffic.
Context {FT : FloatText} {SK : Sklearn}.

Lemma next_reply_nth (s : state) : next_reply s = nth 0 (replies s) Served.
Proof. unfold next_reply. destruct (replies s); reflexivity. Qed.

(** Line 78 of a run: the KnownSet is in the cache afterwards, and one GET
    has been sent exactly when the run fetches. *)
Lemma script_run_load (ev : event) (s : state) :
  exists ks msgs s2,
    script_run ev s = handler ev ks s2
    /\ fetch_registered (start ev s) = (Ok ks, s2)
    /\ sheet s2 = sheet s /\ session s2 = session s
    /\ cache s2 = Some (ks, msgs) /\ ui s2 = msgs
    /\ sent s2 = sent s ++ (if fetches ev s then [GET] else [])
    /\ replies s2 = skipn (if fetches ev s then 1 else 0) (replies s)
    /\ (cache_aligned s -> aligned ks)
    /\ (fetches ev s = false -> cache s = Some (ks, msgs)).
Proof.
  destruct (fetch_registered_any (start ev s)) as (ks & msgs & Hf & Hal & Hc).
  destruct (start_fields ev s) as (Hsh & Hrep & Hsent & Hsess & Hui & _).
  eexists ks, msgs, _.
  split; [rewrite script_run_start; unfold bind at 1; rewrite Hf;
          destruct ev; reflexivity|].
  split; [exact Hf|].
  cbn [sheet session cache ui sent replies].
  rewrite Hsh, Hrep, Hsent, Hsess, Hui.
  split; [reflexivity|]. split; [reflexivity|]. split; [reflexivity|].
  split; [reflexivity|].
  destruct (start_cache_fetches ev s) as [[Hfe Hcs]|(Hfe & Hcs & c & Hcc)];
    rewrite Hfe.
  - rewrite Hcs. split; [reflexivity|].
    split; [destruct (replies s); reflexivity|].
    split; [intros H; apply Hal, start_aligned, H|discriminate].
  - rewrite Hcs in *. rewrite Hcc in *. subst c.
    split; [rewrite app_nil_r; reflexivity|]. split; [reflexivity|].
    split; [intros H; apply Hal, start_aligned, H|reflexivity].
Qed.

(** The no-match branch of the Register button, field by field. *)
Lemma register_click_posts known e name sid now s :
  strip name <> EmptyString -> strip sid <> EmptyString ->
  find_match (embs known) e default_threshold = Ok None ->
  exists ks msgs,
    register_click known (Some e) name sid now s
    = (Ok ks,
       {| sheet := rows_after_post (next_reply s) (sheet s) (new_row now sid name e);
          replies := tl (tl (replies s));
          sent := sent s ++ [POST (new_row now sid name e); GET];
          cache := Some (ks, msgs);
          session := session s;
          ui := ui s
                ++ match request_failure (next_reply s) with
                   | Some x => [(error, UploadFailed x)]
                   | None => []
                   end
                ++ [(success, RegisteredSuccessfully)] ++ msgs |})
    /\ aligned ks.
Proof.
  intros Hn Hs Hm.
  rewrite (register_click_no_match known e name sid now s Hn Hs Hm).
  rewrite post_student_run. cbn [snd].
  match goal with |- context [fetch_registered ?st] =>
    destruct (fetch_registered_any st) as (ks & msgs & Hf & Hal & _)
  end.
  exists ks, msgs. split; [|apply Hal; exact I].
  rewrite Hf. unfold rows_after_post, request_failure.
  destruct (next_reply s) as [|cause|st b]; cbn;
    try destruct ((400 <=? st)%Z && (st <? 600)%Z); cbn;
    rewrite <- ?app_assoc; reflexivity.
Qed.

Lemma registers_some (ks : knownset) (ev : event) (row : json) :
  registers ks ev = Some row ->
  exists e name sid now,
    ev = ClickRegister (Some e) name sid now
    /\ row = new_row now sid name e
    /\ strip name <> EmptyString /\ strip sid <> EmptyString
    /\ find_match (embs ks) e default_threshold = Ok None.
Proof.
  destruct ev as [| |[e|] name sid now|emb|]; try discriminate.
  unfold registers.
  destruct (py_not (strip name) || py_not (strip sid)) eqn:V; [discriminate|].
  apply orb_false_iff in V. destruct V as [Vn Vs].
  destruct (find_match (embs ks) e default_threshold) as [[i|]|x] eqn:Hm;
    try discriminate.
  intros [= <-]. exists e, name, sid, now.
  split; [reflexivity|]. split; [reflexivity|].
  split; [intros H; apply py_not_true in H; congruence|].
  split; [intros H; apply py_not_true in H; congruence|exact Hm].
Qed.

Lemma registers_none_register (ks : knownset) emb name sid now :
  registers ks (ClickRegister emb name sid now) = None ->
  forall e, emb = Some e -> strip name <> EmptyString ->
  strip sid <> EmptyString ->
  find_match (embs ks) e default_threshold <> Ok None.
Proof.
  intros H e -> Hn Hs Hm. unfold registers in H.
  rewrite (valid_text _ _ Hn Hs), Hm in H. discriminate.
Qed.

(** The requests of one run and the rows of the store after it. *)
Lemma script_run_traffic (ev : event) (s : state) :
  exists ks,
    fst (fetch_registered (start ev s)) = Ok ks
    /\ match registers ks ev with
       | Some row =>
           sent (snd (script_run ev s))
           = sent s ++ (if fetches ev s then [GET] else []) ++ [POST row; GET]
           /\ sheet (snd (script_run ev s))
              = rows_after_post
                  (nth (if fetches ev s then 1 else 0) (replies s) Served)
                  (sheet s) row
           /\ replies (snd (script_run ev s))
              = skipn (if fetches ev s then 3 else 2) (replies s)
       | None =>
           sent (snd (script_run ev s))
           = sent s ++ (if fetches ev s then [GET] else [])
           /\ sheet (snd (script_run ev s)) = sheet s
           /\ replies (snd (script_run ev s))
              = skipn (if fetches ev s then 1 else 0) (replies s)
       end.
Proof.
  destruct (script_run_load ev s)
    as (ks & msgs & s2 & Hrun & Hf & Hsh & _ & _ & _ & Hsent & Hrep & _).
  exists ks. split; [rewrite Hf; reflexivity|]. rewrite Hrun.
  destruct (registers ks ev) as [row|] eqn:Hreg.
  - destruct (registers_some ks ev row Hreg)
      as (e & name & sid & now & -> & -> & Hn & Hs & Hm).
    cbn [handler]. unfold bind at 1 2 3.
    destruct (register_click_posts ks e name sid now s2 Hn Hs Hm)
      as (ks' & msgs' & -> & _).
    cbn [fst snd sent sheet replies ret].
    rewrite Hsent, Hsh, Hrep, next_reply_nth, Hrep, <- app_assoc.
    split; [reflexivity|].
    destruct (fetches _ s); destruct (replies s) as [|r0 [|r1 [|r2 l]]];
      split; reflexivity.
  - destruct ev as [| |emb name sid now|emb|]; cbn [handler];
      try (cbn; rewrite Hsent, Hsh, Hrep; repeat split; reflexivity).
    + destruct (register_click_cases ks emb name sid now s2)
        as [(m & Hr)|[(x & e & -> & Hr & _)|(e & -> & Hn & Hs & Hm)]].
      * unfold bind. rewrite Hr. cbn. rewrite Hsent, Hsh, Hrep.
        repeat split; reflexivity.
      * unfold bind. rewrite Hr. cbn. rewrite Hsent, Hsh, Hrep.
        repeat split; reflexivity.
      * exfalso.
        exact (registers_none_register ks _ name sid now Hreg e eq_refl Hn Hs Hm).
    + destruct (login_click_frame ks emb s2) as (-> & -> & -> & _).
      rewrite Hsent, Hsh, Hrep. repeat split; reflexivity.
Qed.

End Traffic.

(** ** Runs: results, requests, store, session and cache *)

Section RunProperties.
Context {FT : FloatText} {SK : Sklearn}.

(** X5: whatever the store replies, the body of [fetch_registered] returns
    three lists that tell of the same records. *)
Theorem fetch_keeps_records_together (s : state) :
  exists ks s',
    fetch_registered_body s = (Ok ks, s')
    /\ length (names ks) = length (full ks)
    /\ length (embs ks) = length (full ks)
    /\ forall i d, nth_error (full ks) i = Some d ->
         exists n e,
           nth_error (names ks) i = Some n
           /\ nth_error (embs ks) i = Some e
           /\ py_getitem d "name" = Ok n
           /\ encoding_of d = Some e
           /\ length e = EMB_SIZE.
Proof.
  destruct (fetch_registered_body_total s) as (ks & s' & Hrun & _ & _).
  exists ks, s'. split; [exact Hrun|].
  destruct (fetch_registered_body_aligned s ks s' Hrun) as [[Hn Hf] Ha].
  split; [congruence|]. split; [congruence|].
  intros i d Hd. destruct (Ha i d Hd) as (n & e & Hni & Hei & Hent).
  exists n, e. split; [assumption|]. split; [assumption|].
  pose proof (entry_of_size d n e Hent) as Hlen.
  unfold entry_of in Hent.
  destruct (encoding_of d) as [e'|]; [|discriminate].
  destruct (py_getitem d "name") as [n'|]; [|discriminate].
  injection Hent as -> ->. repeat split; assumption.
Qed.

(** X6: from a cache whose lists are aligned, after any runs, a run whose
    button comes with no embedding, or with one of 128 finite components,
    returns normally when the KnownSet that it loads holds no [nan] and no
    infinite entry. *)
Theorem script_run_returns (evs : list event) (ev : event) (s : state) :
  cache_aligned s -> event_ok ev ->
  (forall ks, fst (fetch_registered (start ev (session_after evs s))) = Ok ks ->
              finite_known ks) ->
  fst (script_run ev (session_after evs s)) = Ok tt.
Proof.
  intros Hc Hev Hfin.
  pose proof (session_after_aligned evs s Hc) as Hc0.
  destruct (script_run_load ev (session_after evs s))
    as (ks & msgs & s2 & -> & Hf & _ & _ & Hcache & _ & _ & _ & Hal & _).
  specialize (Hal Hc0).
  assert (Hfk : finite_known ks) by (apply Hfin; rewrite Hf; reflexivity).
  destruct ev as [| |emb name sid now|emb|]; try reflexivity.
  - cbn [handler]. unfold bind.
    destruct (register_click_returns ks emb name sid now s2 Hal Hfk)
      as (ks' & s' & -> & _).
    + unfold cache_aligned. rewrite Hcache. exact Hal.
    + destruct emb; [exact Hev|exact I].
    + reflexivity.
  - cbn [handler]. apply login_click_returns; [exact Hal|exact Hfk|].
    destruct emb; [exact Hev|exact I].
Qed.

(** X17: a loaded KnownSet with an entry that is [nan] or infinite ends the
    run of Login, and of Register with a name and an id, in [ValueError],
    whatever the embedding of the button. *)
Theorem not_finite_known_raises (ev : event) (e : vec) (s : state)
    (ks : knownset) :
  fst (fetch_registered (start ev s)) = Ok ks -> ~ finite_known ks ->
  (ev = ClickLogin (Some e)
   \/ exists name sid now,
        ev = ClickRegister (Some e) name sid now
        /\ strip name <> EmptyString /\ strip sid <> EmptyString) ->
  fst (script_run ev s) = Raise ValueError.
Proof.
  intros Hks Hnf Hev.
  destruct (script_run_load ev s) as (ks' & msgs & s2 & -> & Hf & _).
  rewrite Hf in Hks. injection Hks as ->.
  assert (Hne : embs ks <> []).
  { intros E. apply Hnf. unfold finite_known. rewrite E. reflexivity. }
  assert (Hm : find_match (embs ks) e default_threshold = Raise ValueError).
  { apply find_match_raise_intro; [assumption|].
    intros [_ [_ Hk]]. apply Hnf. unfold finite_known.
    apply forallb_forall. rewrite Forall_forall in Hk. exact Hk. }
  destruct Hev as [->|(name & sid & now & -> & Hn & Hs)]; cbn [handler].
  - unfold login_click. destruct (embs ks) as [|k0 rest]; [congruence|].
    unfold bind, lift. rewrite Hm. reflexivity.
  - unfold bind at 1. unfold register_click.
    rewrite (valid_text _ _ Hn Hs).
    unfold bind at 1, lift at 1. rewrite Hm. reflexivity.
Qed.

Lemma find_match_wrong_size (ks : knownset) (e : vec) (t : float) :
  aligned ks -> embs ks <> [] -> length e <> EMB_SIZE ->
  find_match (embs ks) e t = Raise ValueError.
Proof.
  intros Ha Hne He. apply find_match_raise_intro; [assumption|].
  intros [[_ Hsh] _]. pose proof (aligned_sizes ks Ha) as Hsz.
  destruct (embs ks) as [|k0 rest]; [congruence|].
  inversion Hsh; subst. inversion Hsz; subst. congruence.
Qed.

(** X7: an embedding of another size than 128, against a cached KnownSet
    that is not empty, ends the run of Login, and of Register with a name
    and an id, in [ValueError]; nothing is sent, stored or logged in. *)
Theorem wrong_size_query_raises (ev : event) (e : vec) (s : state)
    (ks : knownset) (msgs : list message) :
  cache s = Some (ks, msgs) -> aligned ks -> embs ks <> [] ->
  length e <> EMB_SIZE ->
  (ev = ClickLogin (Some e)
   \/ exists name sid now,
        ev = ClickRegister (Some e) name sid now
        /\ strip name <> EmptyString /\ strip sid <> EmptyString) ->
  script_run ev s = (Raise ValueError, set_ui msgs s).
Proof.
  intros Hc Ha Hne He Hev.
  pose proof (find_match_wrong_size ks e default_threshold Ha Hne He) as Hm.
  rewrite script_run_start.
  assert (Hst : start ev s = set_ui [] s)
    by (destruct Hev as [->|(name & sid & now & -> & _)]; reflexivity).
  rewrite Hst. unfold bind at 1.
  rewrite (fetch_registered_hit (set_ui [] s) ks msgs Hc).
  destruct Hev as [->|(name & sid & now & -> & Hn & Hs)].
  - unfold login_click. destruct (embs ks) as [|k0 rest]; [congruence|].
    unfold bind, lift. rewrite Hm. reflexivity.
  - unfold bind at 1. unfold register_click.
    rewrite (valid_text _ _ Hn Hs).
    unfold bind at 1, lift at 1. rewrite Hm. reflexivity.
Qed.

(** X8: the requests of one run.  The run sends a GET when the cache is
    empty or Refresh was pressed; then, exactly when Register was pressed
    with an embedding, a name and an id that are not blank, and the Matcher
    found no match in the loaded KnownSet, a POST of the new row and a
    second GET.  The stored rows change by that row at most, and only when
    the POST was served. *)
Theorem run_traffic (ev : event) (s : state) :
  exists ks,
    fst (fetch_registered (start ev s)) = Ok ks
    /\ match registers ks ev with
       | Some row =>
           sent (snd (script_run ev s))
           = sent s ++ (if fetches ev s then [GET] else []) ++ [POST row; GET]
           /\ sheet (snd (script_run ev s))
              = rows_after_post
                  (nth (if fetches ev s then 1 else 0) (replies s) Served)
                  (sheet s) row
           /\ replies (snd (script_run ev s))
              = skipn (if fetches ev s then 3 else 2) (replies s)
       | None =>
           sent (snd (script_run ev s))
           = sent s ++ (if fetches ev s then [GET] else [])
           /\ sheet (snd (script_run ev s)) = sheet s
           /\ replies (snd (script_run ev s))
              = skipn (if fetches ev s then 1 else 0) (replies s)
       end.
Proof. exact (script_run_traffic ev s). Qed.

(** X9: the store only grows.  After any runs the stored rows are the
    rows of the start followed by rows that Register events of the session
    posted, at most one a run, each with the trimmed name and id of its
    event, neither of them empty. *)
Theorem store_append_only (evs : list event) (s : state) :
  exists added,
    sheet (session_after evs s) = sheet s ++ added
    /\ (length added <= length evs)%nat
    /\ Forall (fun row =>
                 exists e name sid now,
                   In (ClickRegister (Some e) name sid now) evs
                   /\ row = new_row now sid name e
                   /\ strip name <> EmptyString
                   /\ strip sid <> EmptyString) added.
Proof.
  revert s. induction evs as [|ev evs IH]; intros s.
  - exists []. cbn. rewrite app_nil_r. repeat split; [lia|constructor].
  - cbn [session_after].
    destruct (IH (snd (script_run ev s))) as (added & Hsh & Hlen & Hall).
    assert (Hlater : Forall (fun row =>
                 exists e name sid now,
                   In (ClickRegister (Some e) name sid now) (ev :: evs)
                   /\ row = new_row now sid name e
                   /\ strip name <> EmptyString
                   /\ strip sid <> EmptyString) added).
    { eapply Forall_impl; [|exact Hall]. cbn beta.
      intros row (e & name & sid & now & Hin & Hrow).
      exists e, name, sid, now. split; [right; exact Hin|exact Hrow]. }
    destruct (script_run_traffic ev s) as (ks & _ & Htr).
    destruct (registers ks ev) as [row|] eqn:Hreg.
    + destruct Htr as (_ & Hs1 & _).
      destruct (registers_some ks ev row Hreg)
        as (e & name & sid & now & -> & -> & Hn & Hs & _).
      unfold rows_after_post in Hs1.
      destruct (nth _ (replies s) Served).
      * exists (new_row now sid name e :: added).
        rewrite Hsh, Hs1, <- app_assoc. split; [reflexivity|].
        split; [cbn; lia|]. constructor; [|exact Hlater].
        exists e, name, sid, now. repeat split; try assumption. left. reflexivity.
      * exists added. rewrite Hsh, Hs1. split; [reflexivity|].
        split; [cbn; lia|exact Hlater].
      * exists added. rewrite Hsh, Hs1. split; [reflexivity|].
        split; [cbn; lia|exact Hlater].
    + destruct Htr as (_ & Hs1 & _).
      exists added. rewrite Hsh, Hs1. split; [reflexivity|].
      split; [cbn; lia|exact Hlater].
Qed.

Lemma login_click_session known emb s :
  session (snd (login_click known emb s))
  = match emb with
    | Some e =>
        match find_match (embs known) e default_threshold with
        | Ok (Some i) =>
            match nth_error (names known) i with
            | Some n => Some n
            | None => session s
            end
        | _ => session s
        end
    | None => session s
    end.
Proof.
  destruct emb as [e|]; [|reflexivity].
  unfold login_click.
  destruct (embs known) as [|k0 rest]; [reflexivity|].
  unfold bind, lift, getitem.
  destruct (find_match (k0 :: rest) e default_threshold) as [[i|]|x];
    [|reflexivity..].
  destruct (nth_error (names known) i); reflexivity.
Qed.

Lemma register_click_session known emb name sid now s :
  session (snd (register_click known emb name sid now s)) = session s.
Proof.
  destruct (register_click_cases known emb name sid now s)
    as [(m & Hr)|[(x & e & -> & Hr & _)|(e & -> & Hn & Hs & Hm)]].
  - rewrite Hr. reflexivity.
  - rewrite Hr. reflexivity.
  - destruct (register_click_posts known e name sid now s Hn Hs Hm)
      as (ks' & msgs' & -> & _). reflexivity.
Qed.

(** X10: the session identity.  Logout clears it; a Login whose embedding
    the Matcher finds in the loaded KnownSet sets it to the name at the
    matched index; every other run, a Login without match and a
    registration among them, leaves it as it was. *)
Theorem session_identity_changes (ev : event) (s : state) :
  exists ks,
    fst (fetch_registered (start ev s)) = Ok ks
    /\ session (snd (script_run ev s))
       = match ev with
         | ClickLogout => None
         | ClickLogin (Some e) =>
             match find_match (embs ks) e default_threshold with
             | Ok (Some i) =>
                 match nth_error (names ks) i with
                 | Some n => Some n
                 | None => session s
                 end
             | _ => session s
             end
         | _ => session s
         end.
Proof.
  destruct (script_run_load ev s)
    as (ks & msgs & s2 & -> & Hf & _ & Hsess & _).
  exists ks. split; [rewrite Hf; reflexivity|].
  destruct ev as [| |emb name sid now|emb|]; cbn [handler];
    try (cbn; congruence).
  - unfold bind.
    pose proof (register_click_session ks emb name sid now s2) as Hr.
    destruct (register_click ks emb name sid now s2) as [[ks'|x] s3];
      cbn in *; congruence.
  - rewrite login_click_session. rewrite Hsess. destruct emb; reflexivity.
Qed.

Lemma script_run_fills_cache (ev : event) (s : state) :
  exists ks msgs, cache (snd (script_run ev s)) = Some (ks, msgs).
Proof.
  destruct (script_run_load ev s)
    as (ks & msgs & s2 & -> & _ & _ & _ & Hcache & _).
  destruct ev as [| |emb name sid now|emb|]; cbn [handler];
    try (exists ks, msgs; exact Hcache).
  - unfold bind.
    destruct (register_click_cases ks emb name sid now s2)
      as [(m & Hr)|[(x & e & -> & Hr & _)|(e & -> & Hn & Hs & Hm)]].
    + rewrite Hr. exists ks, msgs. exact Hcache.
    + rewrite Hr. exists ks, msgs. exact Hcache.
    + destruct (register_click_posts ks e name sid now s2 Hn Hs Hm)
        as (ks' & msgs' & -> & _).
      exists ks', msgs'. reflexivity.
  - exists ks, msgs.
    destruct (login_click_frame ks emb s2) as (_ & _ & _ & ->). exact Hcache.
Qed.

(** X11: after any run the cache is filled, and a run without a button
    (Rerun) is served from it: it returns normally, sends nothing, and
    changes neither the store, the cache nor the session. *)
Theorem rerun_is_served_from_cache (ev : event) (s : state) :
  exists ks msgs s2,
    cache (snd (script_run ev s)) = Some (ks, msgs)
    /\ script_run Rerun (snd (script_run ev s)) = (Ok tt, s2)
    /\ same_but_ui (snd (script_run ev s)) s2.
Proof.
  destruct (script_run_fills_cache ev s) as (ks & msgs & Hc).
  exists ks, msgs, (set_ui msgs (snd (script_run ev s))).
  split; [exact Hc|]. split; [|apply same_but_ui_set_ui].
  rewrite script_run_start. unfold bind at 1. cbn [start].
  rewrite (fetch_registered_hit (set_ui [] (snd (script_run ev s))) ks msgs Hc).
  reflexivity.
Qed.

End RunProperties.

(** ** Refresh, the round trips, and the fetch that fails *)

Section RoundTrips.
Context {FT : FloatText} {SK : Sklearn}.

(** X12: Refresh replaces the KnownSet wholesale.  Whatever the cache held,
    a Refresh that gets records through sends one GET and leaves the
    KnownSet of exactly these records in the cache, with one warning on the
    page for each dropped record; the stored rows and the session identity
    stay. *)
Theorem refresh_reloads (s : state) (rows : list json) :
  fetched_rows s = Some rows ->
  Forall (fun d => is_record d = true) rows ->
  exists s' ws,
    script_run ClickRefresh s = (Ok tt, s')
    /\ cache s' = Some (known_of rows, ws)
    /\ ui s' = ws
    /\ Forall (fun m => fst m = warning) ws
    /\ length ws = length (dropped rows)
    /\ sent s' = sent s ++ [GET]
    /\ sheet s' = sheet s /\ session s' = session s.
Proof.
  intros Hrows Hrec.
  destruct (fetch_registered_records (start ClickRefresh s) rows)
    as (s' & ws & Hrun & Hw & Hlen & Hui & Hcache & Hsh & _ & Hsent & Hsess).
  { reflexivity. } { exact Hrows. } { exact Hrec. }
  exists s', ws. rewrite script_run_start. unfold bind at 1. rewrite Hrun.
  split; [reflexivity|]. split; [exact Hcache|]. split; [exact Hui|].
  split; [exact Hw|]. split; [exact Hlen|]. split; [exact Hsent|].
  split; [exact Hsh|exact Hsess].
Qed.



Lemma fetch_registered_failure (s : state) (x : exn) :
  cache s = None -> fetch_failure (next_reply s) = Some x ->
  fetch_registered s
  = (Ok empty_known,
     {| sheet := sheet s; replies := tl (replies s); sent := sent s ++ [GET];
        cache := Some (empty_known, [(error, FailedToFetch x)]);
        session := session s;
        ui := ui s ++ [(error, FailedToFetch x)] |}).
Proof.
  intros Hc Hx.
  rewrite (fetch_registered_miss s empty_known _ Hc
             (fetch_registered_body_failure (set_ui [] s) x Hx)).
  reflexivity.
Qed.

(** X14: a fetch that fails empties the KnownSet, and with it the check
    for duplicates.  When the run has to fetch and the fetch fails at store
    level, Register with a name and an id posts its row whatever the store
    holds and whatever the embedding, and Login answers that no students
    are registered. *)
Theorem failed_fetch_empties_known_set (s : state) (x : exn) :
  cache s = None -> fetch_failure (next_reply s) = Some x ->
  (forall e name sid now,
      strip name <> EmptyString -> strip sid <> EmptyString ->
      exists s' rest,
        script_run (ClickRegister (Some e) name sid now) s = (Ok tt, s')
        /\ sent s' = sent s ++ [GET; POST (new_row now sid name e); GET]
        /\ sheet s'
           = rows_after_post (nth 1 (replies s) Served) (sheet s)
               (new_row now sid name e)
        /\ ui s' = (error, FailedToFetch x) :: rest
        /\ In (success, RegisteredSuccessfully) rest)
  /\ (forall e,
        script_run (ClickLogin (Some e)) s
        = (Ok tt,
           {| sheet := sheet s; replies := tl (replies s);
              sent := sent s ++ [GET];
              cache := Some (empty_known, [(error, FailedToFetch x)]);
              session := session s;
              ui := [(error, FailedToFetch x); (error, NoStudentsRegistered)] |})).
Proof.
  intros Hc Hx.
  pose proof (fetch_registered_failure (set_ui [] s) x Hc Hx) as Hf.
  cbn [sheet replies sent session ui set_ui app] in Hf.
  split.
  - intros e name sid now Hn Hs.
    rewrite script_run_start. unfold bind at 1. cbn [start]. rewrite Hf.
    unfold bind at 1.
    match goal with |- context [register_click empty_known (Some e) name sid now ?st] =>
      destruct (register_click_posts empty_known e name sid now st Hn Hs eq_refl)
        as (ks' & msgs' & -> & _)
    end.
    cbn [sheet replies sent session ui cache].
    eexists _, _. split; [reflexivity|]. cbn [sent sheet ui ret snd fst].
    rewrite <- app_assoc. split; [reflexivity|].
    split.
    { rewrite next_reply_nth. cbn [replies].
      destruct (replies s) as [|r0 [|r1 l]]; reflexivity. }
    split; [reflexivity|].
    apply in_or_app. right. left. reflexivity.
  - intros e. rewrite script_run_start. unfold bind at 1. cbn [start]. rewrite Hf.
    reflexivity.
Qed.

Lemma fetch_step_non_record (d : json) (acc : knownset) (s : state) :
  is_record d = false -> fetch_step d acc s = (Raise AttributeError, s).
Proof.
  destruct d; try discriminate; reflexivity.
Qed.

Lemma fetch_loop_non_record (rows : list json) :
  Exists (fun d => is_record d = false) rows ->
  forall (acc : knownset) (s : state),
  exists ws,
    fetch_loop rows acc s = (Raise AttributeError, set_ui (ui s ++ ws) s)
    /\ Forall (fun m => fst m = warning) ws.
Proof.
  induction rows as [|d rows IH]; intros Hex acc s; [inversion Hex|].
  cbn [fetch_loop]. unfold bind at 1.
  destruct (is_record d) eqn:Hd.
  - assert (Hex' : Exists (fun d => is_record d = false) rows)
      by (inversion Hex; subst; [congruence|assumption]).
    pose proof (fetch_step_record d acc s Hd) as Hstep.
    destruct (entry_of d) as [[n e]|].
    + rewrite Hstep. apply IH. exact Hex'.
    + destruct Hstep as (w & ->).
      destruct (IH Hex' acc (set_ui (ui s ++ [(warning, w)]) s)) as (ws & -> & Hw).
      exists ((warning, w) :: ws). split.
      * cbn. rewrite <- app_assoc. reflexivity.
      * constructor; [reflexivity|exact Hw].
  - rewrite (fetch_step_non_record d acc s Hd).
    exists []. split; [|constructor].
    unfold set_ui. rewrite app_nil_r. destruct s; reflexivity.
Qed.

(** X15: one item that is no record discards all.  When the fetched list
    holds an item that is not a JSON object, the fetch ends in the
    store-level error [AttributeError] after the warnings of the records
    before it, and returns the empty KnownSet, also when every other item
    is a good record; the same happens when the body is a JSON object with
    at least one key, not a list. *)
Theorem non_record_item_discards_all (s : state) :
  (forall rows,
      fetched_rows s = Some rows ->
      Exists (fun d => is_record d = false) rows ->
      exists ws,
        fetch_registered_body s
        = (Ok empty_known,
           set_ui (ui s ++ ws ++ [(error, FailedToFetch AttributeError)])
             (send GET (sheet s) s))
        /\ Forall (fun m => fst m = warning) ws)
  /\ (forall st k v fields,
        next_reply s = Answered st (Some (JObj ((k, v) :: fields))) ->
        ((400 <=? st) && (st <? 600))%Z = false ->
        fetch_registered_body s
        = (Ok empty_known,
           set_ui (ui s ++ [(error, FailedToFetch AttributeError)])
             (send GET (sheet s) s))).
Proof.
  assert (Hloop : forall items,
    Exists (fun d => is_record d = false) items ->
    exists ws,
      try_except (fetch_loop items empty_known)
        (fun e => st_error (FailedToFetch e);; ret empty_known)
        (send GET (sheet s) s)
      = (Ok empty_known,
         set_ui (ui s ++ ws ++ [(error, FailedToFetch AttributeError)])
           (send GET (sheet s) s))
      /\ Forall (fun m => fst m = warning) ws).
  { intros items Hex.
    destruct (fetch_loop_non_record items Hex empty_known (send GET (sheet s) s))
      as (ws & Hrun & Hw).
    exists ws. split; [|exact Hw].
    unfold try_except. rewrite Hrun. cbn. rewrite <- app_assoc. reflexivity. }
  split.
  - intros rows Hrows Hex. unfold fetched_rows in Hrows.
    unfold fetch_registered_body, try_except, bind at 1, requests_get.
    unfold try_except in Hloop.
    destruct (next_reply s) as [|cause|st b]; cbn.
    + injection Hrows as <-. unfold bind, raise_for_status, resp_json, lift. cbn.
      exact (Hloop _ Hex).
    + discriminate.
    + destruct b as [[| | | |items|]|]; try discriminate.
      unfold bind, raise_for_status, resp_json, lift. cbn.
      destruct ((400 <=? st)%Z && (st <? 600)%Z); [discriminate|].
      injection Hrows as <-. cbn. exact (Hloop _ Hex).
  - intros st k v fields Hr Hst.
    unfold fetch_registered_body, try_except, bind at 1, requests_get.
    rewrite Hr. unfold bind, raise_for_status, resp_json, lift. cbn.
    rewrite Hst. reflexivity.
Qed.

End RoundTrips.

Section ReadBack.
Context {FT : FloatText} {SK : Sklearn}.

(** X16: what Register writes, the fetch reads back.  For an embedding whose
    text reads back as itself, the loop of [fetch_registered] admits the row
    of [new_row] with the trimmed name and this embedding exactly when the
    embedding has 128 components; a row with an embedding of another size is
    dropped with the warning for a corrupted encoding. *)
Theorem new_row_read_back (now sid name : string) (e : vec)
    (acc : knownset) (s : state) :
  np_fromstring (encoding_text e) = Ok e ->
  fetch_step (new_row now sid name e) acc s
  = if (length e =? EMB_SIZE)%nat
    then (Ok (append_record acc (JStr (strip name)) e (new_row now sid name e)), s)
    else (Ok acc,
          set_ui (ui s ++ [(warning, SkippedCorruptedEncoding (JStr (strip name)))]) s).
Proof.
  intros Hrt.
  unfold fetch_step, try_except, bind, lift, new_row. cbn.
  rewrite Hrt.
  destruct (length e =? EMB_SIZE)%nat; reflexivity.
Qed.

End ReadBack.

(** ** The further properties on the sample data *)

Lemma find_match_threshold_monotone_witness :
  (forall i, find_match (SK:=sequential) [ones] ones default_threshold = Ok (Some i) ->
             find_match (SK:=sequential) [ones] ones 0.5 = Ok (Some i))
  /\ (find_match (SK:=sequential) [ones] ones 0.5 = Ok None ->
      find_match (SK:=sequential) [ones] ones default_threshold = Ok None).
Proof.
  apply (find_match_threshold_monotone (SK:=sequential) [ones] ones
           default_threshold 0.5).
  vm_compute. reflexivity.
Defined.

Lemma script_run_returns_witness :
  fst (script_run (FT:=sample_text) (SK:=sequential) (ClickLogin (Some ones))
         (session_after (FT:=sample_text) (SK:=sequential)
            [ClickRegister (Some ones) "Ann" "S001" "2024-05-01T09:00:00"]
            fresh))
  = Ok tt.
Proof.
  apply (script_run_returns (FT:=sample_text) (SK:=sequential)
           [ClickRegister (Some ones) "Ann" "S001" "2024-05-01T09:00:00"]
           (ClickLogin (Some ones)) fresh).
  - exact I.
  - split; [exact ones_length|vm_compute; reflexivity].
  - intros ks Hks. vm_compute in Hks. injection Hks as <-.
    vm_compute. reflexivity.
Defined.

(** The record of [nan]s is admitted by the fetch, and a Login against the
    KnownSet that holds it raises. *)
Lemma not_finite_known_raises_witness :
  fst (fetch_registered (FT:=sample_text)
         (start (ClickLogin (Some ones)) nan_stored))
  = Ok {| names := [JStr "Ann"; JStr "Cy"]; embs := [ones; nans];
          full := [ann_row; nan_row] |}
  /\ fst (script_run (FT:=sample_text) (SK:=sequential) (ClickLogin (Some ones))
            nan_stored)
     = Raise ValueError.
Proof.
  assert (Hks : fst (fetch_registered (FT:=sample_text)
                       (start (ClickLogin (Some ones)) nan_stored))
                = Ok {| names := [JStr "Ann"; JStr "Cy"]; embs := [ones; nans];
                        full := [ann_row; nan_row] |})
    by (vm_compute; reflexivity).
  split; [exact Hks|].
  apply (not_finite_known_raises (FT:=sample_text) (SK:=sequential)
           (ClickLogin (Some ones)) ones nan_stored _ Hks).
  - vm_compute. discriminate.
  - left. reflexivity.
Defined.

Lemma ann_known_aligned : aligned (FT:=sample_text) ann_known.
Proof.
  split; [split; reflexivity|].
  intros [|[|i]] d Hd; try discriminate.
  injection Hd as <-. exists (JStr "Ann"), ones.
  split; [reflexivity|]. split; [reflexivity|].
  vm_compute. reflexivity.
Qed.

Lemma wrong_size_query_raises_witness :
  script_run (FT:=sample_text) (SK:=sequential)
    (ClickLogin (Some [1; 2; 3]%float)) ann_cached_offline
  = (Raise ValueError, set_ui [] ann_cached_offline).
Proof.
  apply (wrong_size_query_raises (FT:=sample_text) (SK:=sequential)
           (ClickLogin (Some [1; 2; 3]%float)) [1; 2; 3]%float ann_cached_offline
           ann_known []).
  - reflexivity.
  - exact ann_known_aligned.
  - discriminate.
  - unfold EMB_SIZE. cbn. lia.
  - left. reflexivity.
Defined.

Lemma refresh_reloads_witness :
  exists s' ws,
    script_run (FT:=sample_text) (SK:=sequential) ClickRefresh stale_cache = (Ok tt, s')
    /\ cache s' = Some (known_of (FT:=sample_text) [short_row; ann_row], ws)
    /\ ui s' = ws
    /\ Forall (fun m => fst m = warning) ws
    /\ length ws = length (dropped (FT:=sample_text) [short_row; ann_row])
    /\ sent s' = sent stale_cache ++ [GET]
    /\ sheet s' = sheet stale_cache /\ session s' = session stale_cache.
Proof.
  apply (refresh_reloads (FT:=sample_text) (SK:=sequential) stale_cache
           [short_row; ann_row]).
  - reflexivity.
  - repeat constructor.
Defined.


Lemma failed_fetch_empties_known_set_witness :
  (forall e name sid now,
      strip name <> EmptyString -> strip sid <> EmptyString ->
      exists s' rest,
        script_run (FT:=sample_text) (SK:=sequential)
          (ClickRegister (Some e) name sid now) offline
        = (Ok tt, s')
        /\ sent s'
           = sent offline ++ [GET; POST (new_row (FT:=sample_text) now sid name e); GET]
        /\ sheet s'
           = rows_after_post (nth 1 (replies offline) Served) (sheet offline)
               (new_row (FT:=sample_text) now sid name e)
        /\ ui s' = (error, FailedToFetch (RequestException "Read timed out")) :: rest
        /\ In (success, RegisteredSuccessfully) rest)
  /\ (forall e,
        script_run (FT:=sample_text) (SK:=sequential) (ClickLogin (Some e)) offline
        = (Ok tt,
           {| sheet := sheet offline; replies := tl (replies offline);
              sent := sent offline ++ [GET];
              cache := Some (empty_known,
                             [(error, FailedToFetch (RequestException "Read timed out"))]);
              session := session offline;
              ui := [(error, FailedToFetch (RequestException "Read timed out"));
                     (error, NoStudentsRegistered)] |})).
Proof.
  apply (failed_fetch_empties_known_set (FT:=sample_text) (SK:=sequential) offline
           (RequestException "Read timed out")).
  - reflexivity.
  - reflexivity.
Defined.

Lemma non_record_item_discards_all_witness :
  exists ws,
    fetch_registered_body (FT:=sample_text) mixed_list
    = (Ok empty_known,
       set_ui (ui mixed_list ++ ws ++ [(error, FailedToFetch AttributeError)])
         (send GET (sheet mixed_list) mixed_list))
    /\ Forall (fun m => fst m = warning) ws.
Proof.
  apply (proj1 (non_record_item_discards_all (FT:=sample_text) mixed_list)
           [ann_row; JStr "n/a"]).
  - reflexivity.
  - right. left. reflexivity.
Defined.

Lemma new_row_read_back_witness :
  fetch_step (FT:=sample_text)
    (new_row (FT:=sample_text) "2024-05-01T09:00:00" "S001" " Ann " ones)
    empty_known fresh
  = if (length ones =? EMB_SIZE)%nat
    then (Ok (append_record empty_known (JStr (strip " Ann ")) ones
                (new_row (FT:=sample_text) "2024-05-01T09:00:00" "S001" " Ann " ones)),
          fresh)
    else (Ok empty_known,
          set_ui (ui fresh
                  ++ [(warning, SkippedCorruptedEncoding (JStr (strip " Ann ")))])
            fresh).
Proof.
  apply (new_row_read_back (FT:=sample_text)
           "2024-05-01T09:00:00" "S001" " Ann " ones empty_known fresh).
  exact sample_text_ones.
Defined.
